(** * myBackTester: an event-driven backtester, embedded in Rocq

    A shallow embedding of the Python sources [event.py], [data.py],
    [portfolio.py], [performance.py] and the dispatch loop of [main.py],
    with the properties of the system stated and proved over it.  The
    code is embedded as it is written, its slips included.

    Conventions of the embedding.
    - A Python [float] is an exact rational ([Q], compared with [==]); a
      float that is NaN is [None] in a [cell], and arithmetic on cells
      carries NaN along as Python does.  Rounding is not modelled.  The
      Sharpe ratio needs a square root and is stated over the real
      numbers.
    - A Python [int] is a [Z]; a timestamp is a [Z] as well.
    - A Python [dict] with string keys is a [gmap string _]; subscripting a
      missing key raises [KeyError].
    - Each file is read in the Python its own text asks for: [data.py]
      advances a generator with its method [next], which is Python 2;
      [portfolio.py] imports [queue], which is Python 3, where
      [math.floor] returns an [int].
    - A function that can raise returns a [result]; [Raise e] names the
      Python exception class.  A method of the ledger that mutates it
      before it raises is a [ledger_op]: its outcome comes with the
      ledger as the call leaves it. *)

From Stdlib Require Import ZArith QArith Qminmax Qround Lia Lqa.
From Stdlib Require Import Reals Lra Sorted.
From stdpp Require Import base option list strings gmap.

Local Open Scope string_scope.
Local Open Scope list_scope.
Local Open Scope Z_scope.

(** ** Exceptions and the error monad *)

Inductive exn : Type :=
| KeyError
| IndexError
| TypeError
| ValueError
| AttributeError
| AssertionError
| StopIteration
| IOError.

Inductive result (A : Type) : Type :=
| Ok (a : A)
| Raise (e : exn).
Arguments Ok {A} a.
Arguments Raise {A} e.

#[global] Instance result_ret : MRet result := fun A a => Ok a.
#[global] Instance result_bind : MBind result := fun A B k r =>
  match r with
  | Ok a => k a
  | Raise e => Raise e
  end.

(** [d[k]] on a dict: the value, or [KeyError]. *)
Definition getitem {V : Type} (d : gmap string V) (k : string) : result V :=
  match d !! k with
  | Some v => Ok v
  | None => Raise KeyError
  end.

(** [l[0]] on a list: the head, or [IndexError]. *)
Definition first {A : Type} (l : list A) : result A :=
  match l with
  | x :: _ => Ok x
  | [] => Raise IndexError
  end.

(** [assert c]. *)
Definition py_assert (c : bool) : result unit :=
  if c then Ok tt else Raise AssertionError.

(** A float cell of a data frame: a rational, or NaN. *)
Definition cell : Type := option Q.

(** ** event.py *)

Module Event.

(** [SignalEvent.__init__(symbol, datetime, signal_type)] stores the three
    arguments.  [generate_naive_order] reads a fourth attribute,
    [strength], which the constructor does not set: the attribute is
    optional in the record, and [None] when the object comes straight
    from the constructor. *)
Record SignalEvent : Type := mkSignal {
  sig_symbol : string;
  sig_datetime : Z;
  signal_type : string;
  strength : option Q
}.

Definition valid_signal_type (t : string) : bool :=
  String.eqb t "LONG" || String.eqb t "SHORT" || String.eqb t "EXIT".

Definition SignalEvent_init (symbol : string) (datetime : Z) (ty : string)
  : result SignalEvent :=
  _ ← py_assert (valid_signal_type ty);
  Ok (mkSignal symbol datetime ty None).

(** The value of an attribute of an order: a string or an [int]. *)
Inductive attr : Type :=
| AStr (s : string)
| AInt (z : Z).

Definition attr_is (a : attr) (s : string) : bool :=
  match a with
  | AStr s' => String.eqb s' s
  | AInt _ => false
  end.

(** [type] is the tag by which the loop and the ledger tell the classes
    apart: an order that has been given one has ['ORDER']. *)
Definition names_order (attrs : gmap string attr) : bool :=
  match attrs !! "type" with
  | Some a => attr_is a "ORDER"
  | None => true
  end.

(** An instance of [OrderEvent] is the dict of its attributes. *)
Record OrderEvent : Type := mkOrderObject {
  ord_attrs : gmap string attr;
  ord_type : names_order ord_attrs = true
}.

(** [o.name]: the attribute, or [AttributeError]. *)
Definition getattr_order (o : OrderEvent) (name : string) : result attr :=
  match ord_attrs o !! name with
  | Some v => Ok v
  | None => Raise AttributeError
  end.

(** [OrderEvent.__init__(symbol, order_type, quantity, direction)] checks
    its arguments with four assertions and assigns no attribute: the
    instance it returns has none, not even the [type] its sibling classes
    set.  The quantity is an [int]: [isinstance(quantity, int)] holds for
    every [Z]. *)
Definition OrderEvent_init (symbol ty : string) (quantity : Z) (direction : string)
  : result OrderEvent :=
  _ ← py_assert (String.eqb ty "MKT" || String.eqb ty "LMT");
  _ ← py_assert (0 <=? quantity);
  _ ← py_assert (String.eqb direction "BUY" || String.eqb direction "SELL");
  Ok (mkOrderObject ∅ eq_refl).

(** [print_order]: the four attributes are read in this order to fill the
    format string; the result here is the tuple that is formatted. *)
Definition print_order (o : OrderEvent) : result (attr * attr * attr * attr) :=
  symbol ← getattr_order o "symbol";
  order_type ← getattr_order o "order_type";
  quantity ← getattr_order o "quantity";
  direction ← getattr_order o "direction";
  Ok (symbol, order_type, quantity, direction).

Record FillEvent : Type := mkFill {
  fill_timeindex : Z;
  fill_symbol : string;
  fill_exchange : string;
  fill_quantity : Z;
  fill_direction : string;
  fill_cost : Q;
  fill_commission : Q
}.

(** [caculate_ib_commission], on the quantity and the per-share fill
    price stored in [fill_cost]. *)
Definition caculate_ib_commission (quantity : Z) (fill_cost : Q) : Q :=
  let full_cost :=
    if quantity <=? 500
    then Qmax (13 # 10) ((13 # 1000) * inject_Z quantity)
    else Qmax (13 # 10) ((8 # 1000) * inject_Z quantity) in
  Qmin full_cost ((5 # 10) / 100 * inject_Z quantity * fill_cost).

Definition FillEvent_init (timeindex : Z) (symbol exchange : string)
    (quantity : Z) (direction : string) (fill_cost : Q)
    (commission : option Q) : FillEvent :=
  let c := match commission with
           | None => caculate_ib_commission quantity fill_cost
           | Some c => c
           end in
  mkFill timeindex symbol exchange quantity direction fill_cost c.

(** An event, tagged with its class. *)
Inductive event : Type :=
| MARKET
| SIGNAL (s : SignalEvent)
| ORDER (o : OrderEvent)
| FILL (f : FillEvent).

(** [event.type]: the three classes whose constructor sets it, and an
    attribute lookup on an order. *)
Definition event_type (ev : event) : result attr :=
  match ev with
  | MARKET => Ok (AStr "MARKET")
  | SIGNAL _ => Ok (AStr "SIGNAL")
  | ORDER o => getattr_order o "type"
  | FILL _ => Ok (AStr "FILL")
  end.

End Event.

(** The event queue: [events.put(x)] appends at the tail, [events.get(False)]
    pops the head.  [update_signal] puts whatever [generate_naive_order]
    returned, which may be Python's [None]: an entry is an [option]. *)
Definition queue : Type := list (option Event.event).

Definition put (q : queue) (x : option Event.event) : queue := q ++ [x].

(** ** data.py *)

Module Data.

(** One record of a CSV file, after [index_col=0]: the columns
    [open, low, high, close, volume, oi] in this order. *)
Record row : Type := mkRow {
  r_open : cell;
  r_low : cell;
  r_high : cell;
  r_close : cell;
  r_volume : cell;
  r_oi : cell
}.

Definition nan_row : row := mkRow None None None None None None.

(** Records with their timestamps, in order. *)
Abbreviation frame := (list (Z * row)).

Definition index (f : frame) : list Z := map fst f.

(** The bar tuple built by [_get_new_bar]:
    [(symbol, datetime, open, low, high, close, volume)], so that
    subscript 1 is the timestamp and subscript 5 the close. *)
Record bar : Type := mkBar {
  bar_symbol : string;
  bar_datetime : Z;
  bar_open : cell;
  bar_low : cell;
  bar_high : cell;
  bar_close : cell;
  bar_volume : cell
}.

(** [Index.union]: the sorted union of two indexes, without duplicates.
    It returns a new index and leaves its receiver unchanged. *)
Fixpoint index_insert (t : Z) (l : list Z) : list Z :=
  match l with
  | [] => [t]
  | u :: l' =>
      if t <? u then t :: u :: l'
      else if t =? u then u :: l'
      else u :: index_insert t l'
  end.

Definition index_union (a b : list Z) : list Z :=
  foldr index_insert [] (a ++ b).

(** The timestamps grow strictly. *)
Fixpoint increasingb (idx : list Z) : bool :=
  match idx with
  | [] => true
  | t :: rest =>
      match rest with
      | [] => true
      | u :: _ => (t <? u) && increasingb rest
      end
  end.

(** The [DataFrame] that [read_csv] parses from a file of the feed.  The
    docstring of [_open_convert_csv_files] assumes the format of the feed
    is respected: the records of a file come in strictly increasing order
    of their timestamps.  Frames are embedded under this assumption only;
    on an index that repeats a label or is out of order pandas' [reindex]
    with a fill method raises or pads by position. *)
Record DataFrame : Type := mkDataFrame {
  df_records : frame;
  df_increasing : increasingb (index df_records) = true
}.

(** [reindex(index=idx, method='pad')]: at each label of [idx] the frame's
    last record at or before that label, NaN where there is none. *)
Definition pad_lookup (f : frame) (t : Z) : row :=
  foldl (fun acc (e : Z * row) => if fst e <=? t then snd e else acc) nan_row f.

(** [f.reindex(index=idx, method='pad').iterrows()]: the rows of the
    reindexed frame, as the iterator will yield them. *)
Definition reindex_pad (f : DataFrame) (idx : list Z) : frame :=
  map (fun t => (t, pad_lookup (df_records f) t)) idx.

(** What [self.symbol_data[s]] holds: the frame read from the file, then,
    after the second loop of [_open_convert_csv_files], the [iterrows()]
    iterator over the reindexed frame. *)
Inductive sd_value : Type :=
| Frame (f : DataFrame)
| Iterrows (it : frame).

(** The handler.  The event queue is shared with the other components and
    is passed alongside. *)
Record HistoricCSVDataHandler : Type := mkHandler {
  symbol_list : list string;
  symbol_data : gmap string sd_value;
  latest_symbol_data : gmap string (list bar);
  continue_backtest : bool
}.

(** [pd.io.parsers.read_csv(os.path.join(csv_dir, '%s.csv' % s), ...)];
    [csv] is the directory: the frame of each file that exists.  A
    missing file raises [IOError]. *)
Definition read_csv (csv : gmap string DataFrame) (s : string) : result DataFrame :=
  match csv !! s with
  | Some f => Ok f
  | None => Raise IOError
  end.

(** The first loop of [_open_convert_csv_files].  The call
    [comb_index.union(...)] computes the union and its value is dropped:
    [comb_index] is bound once, to the index of the first symbol. *)
Fixpoint read_files (csv : gmap string DataFrame) (syms : list string)
    (comb_index : option (list Z))
    (sd : gmap string sd_value) (lsd : gmap string (list bar))
  : result (option (list Z) * gmap string sd_value * gmap string (list bar)) :=
  match syms with
  | [] => Ok (comb_index, sd, lsd)
  | s :: syms' =>
      f ← read_csv csv s;
      let sd := <[s := Frame f]> sd in
      let comb_index :=
        match comb_index with
        | None => Some (index (df_records f))
        | Some c => let _ := index_union c (index (df_records f)) in Some c
        end in
      let lsd := <[s := []]> lsd in
      read_files csv syms' comb_index sd lsd
  end.

(** The second loop: every frame is reindexed onto [comb_index] and
    replaced by its row iterator.  A symbol listed twice finds the
    iterator of its first turn, which has no [reindex]. *)
Fixpoint reindex_all (syms : list string) (comb_index : list Z)
    (sd : gmap string sd_value) : result (gmap string sd_value) :=
  match syms with
  | [] => Ok sd
  | s :: syms' =>
      v ← getitem sd s;
      it ← match v with
           | Frame f => Ok (reindex_pad f comb_index)
           | Iterrows _ => Raise AttributeError
           end;
      reindex_all syms' comb_index (<[s := Iterrows it]> sd)
  end.

Definition _open_convert_csv_files (csv : gmap string DataFrame) (syms : list string)
  : result (gmap string sd_value * gmap string (list bar)) :=
  '(comb_index, sd, lsd) ← read_files csv syms None ∅ ∅;
  sd' ← match comb_index with
        | Some c => reindex_all syms c sd
        | None => Ok sd
        end;
  Ok (sd', lsd).

Definition init (csv : gmap string DataFrame) (syms : list string)
  : result HistoricCSVDataHandler :=
  '(sd, lsd) ← _open_convert_csv_files csv syms;
  Ok (mkHandler syms sd lsd true).

(** [for b in self.symbol_data]: iterating a dict walks its keys, in the
    order of the implementation; the order of the map's list stands for
    it. *)
Definition dict_keys {V : Type} (d : gmap string V) : list string :=
  map fst (map_to_list d).

(** [b[0]] on a string: its first character, [IndexError] on the empty
    string. *)
Definition str_first (b : string) : result Ascii.ascii :=
  match b with
  | EmptyString => Raise IndexError
  | String c _ => Ok c
  end.

(** [datetime.datetime.strptime(c, '%Y-%m-%d %H:%M:%S')] on a string of
    one character: the format needs a year, a month, a day and a time, so
    the call raises, whatever the character is. *)
Definition strptime_char (c : Ascii.ascii) : exn := ValueError.

(** [self._get_new_bar(symbol).next()]: a new generator is made and
    advanced once.  Its loop is [for b in self.symbol_data]: it walks the
    dict of all symbols, not the rows of [symbol], so [b] is a symbol
    name and [b[0]] its first character, which [strptime] is asked to
    parse.  The call ends in [StopIteration] only when the dict is empty;
    the subscripts [b[1][0]] to [b[1][4]] are never reached. *)
Definition _get_new_bar_next (h : HistoricCSVDataHandler) (symbol : string)
  : result bar :=
  match dict_keys (symbol_data h) with
  | [] => Raise StopIteration
  | b :: _ => c ← str_first b; Raise (strptime_char c)
  end.

(** Python's [l[start:]]. *)
Definition slice_from {A : Type} (l : list A) (start : Z) : list A :=
  let n := Z.of_nat (length l) in
  let i := if start <? 0 then Z.max (n + start) 0 else Z.min start n in
  drop (Z.to_nat i) l.

(** [get_latest_bars(symbol, N)]: the slice [bar_list[-N:]]; for a symbol
    that is not a key the [except KeyError] branch prints a message and
    the function falls off its end, returning Python's [None]. *)
Definition get_latest_bars (h : HistoricCSVDataHandler) (symbol : string) (N : Z)
  : option (list bar) :=
  match latest_symbol_data h !! symbol with
  | None => None
  | Some bar_list => Some (slice_from bar_list (- N))
  end.

(** The body of the [for] loop of [update_bars], for one symbol: only
    [StopIteration] is caught. *)
Definition update_bar (h : HistoricCSVDataHandler) (s : string)
  : result HistoricCSVDataHandler :=
  match _get_new_bar_next h s with
  | Raise StopIteration =>
      Ok (mkHandler (symbol_list h) (symbol_data h) (latest_symbol_data h) false)
  | Raise e => Raise e
  | Ok b =>
      l ← getitem (latest_symbol_data h) s;
      Ok (mkHandler (symbol_list h) (symbol_data h)
                    (<[s := l ++ [b]]> (latest_symbol_data h))
                    (continue_backtest h))
  end.

Fixpoint update_bars_loop (syms : list string) (h : HistoricCSVDataHandler)
  : result HistoricCSVDataHandler :=
  match syms with
  | [] => Ok h
  | s :: syms' => h' ← update_bar h s; update_bars_loop syms' h'
  end.

(** [update_bars]: one pass over the symbols, then one [MarketEvent] is
    put on the queue.  The method returns nothing. *)
Definition update_bars (h : HistoricCSVDataHandler) (events : queue)
  : result (HistoricCSVDataHandler * queue) :=
  h' ← update_bars_loop (symbol_list h) h;
  Ok (h', put events (Some Event.MARKET)).

End Data.

(** ** portfolio.py *)

Module Portfolio.
Import Event Data.

(** [dict((k, v) for k, v in [(s, 0) for s in symbol_list])] *)
Definition zero_dict {V : Type} (zero : V) (syms : list string) : gmap string V :=
  list_to_map (map (fun s => (s, zero)) syms).

(** Arithmetic on floats that may be NaN: NaN in, NaN out. *)
Definition of_int (z : Z) : cell := Some (inject_Z z).

Definition cell_add (a b : cell) : cell :=
  match a, b with
  | Some x, Some y => Some (x + y)%Q
  | _, _ => None
  end.

Definition cell_sub (a b : cell) : cell :=
  match a, b with
  | Some x, Some y => Some (x - y)%Q
  | _, _ => None
  end.

Definition cell_mul (a b : cell) : cell :=
  match a, b with
  | Some x, Some y => Some (x * y)%Q
  | _, _ => None
  end.

(** The ledger.  The data handler ([self.bars]) and the queue
    ([self.events]) are shared objects and are passed to the methods.
    A row is a dict; the key ['datetime'] holds the timestamp.
    [current_holdings] is what [construct_current_holdings] returns, a
    list. *)
Record NaivePortfolio : Type := mkPortfolio {
  symbol_list : list string;
  start_date : Z;
  init_capital : Q;
  all_position : list (gmap string Z);
  current_positions : gmap string Z;
  all_holdings : list (gmap string cell);
  current_holdings : list (gmap string cell)
}.

Definition construct_all_positions (syms : list string) (start_date : Z)
  : list (gmap string Z) :=
  let d := zero_dict 0 syms in
  let d := <["datetime" := start_date]> d in
  [d].

Definition construct_all_holdings (syms : list string) (start_date : Z)
    (init_capital : Q) : list (gmap string cell) :=
  let d := zero_dict (of_int 0) syms in
  let d := <["datetime" := of_int start_date]> d in
  let d := <["cash" := Some init_capital]> d in
  let d := <["commission" := Some 0%Q]> d in
  let d := <["total" := Some init_capital]> d in
  [d].

(** [construct_current_holdings] ends in [return [d]] like its two
    siblings: it returns a one-element list holding the dict. *)
Definition construct_current_holdings (syms : list string) (init_capital : Q)
  : list (gmap string cell) :=
  let d := zero_dict (of_int 0) syms in
  let d := <["cash" := Some init_capital]> d in
  let d := <["commission" := Some 0%Q]> d in
  let d := <["total" := Some init_capital]> d in
  [d].

(** [NaivePortfolio.__init__(bars, events, start_date, init_capital)] *)
Definition NaivePortfolio_init (bars : HistoricCSVDataHandler) (start_date : Z)
    (init_capital : Q) : NaivePortfolio :=
  let syms := Data.symbol_list bars in
  mkPortfolio syms start_date init_capital
    (construct_all_positions syms start_date)
    (zero_dict 0 syms)
    (construct_all_holdings syms start_date init_capital)
    (construct_current_holdings syms init_capital).

(** *** Methods that mutate the ledger *)

(** The outcome of a method and the ledger as the method leaves it: what
    was appended or stored before an exception stays. *)
Definition ledger_op (A : Type) : Type := NaivePortfolio -> result A * NaivePortfolio.

#[global] Instance ledger_ret : MRet ledger_op := fun A a p => (Ok a, p).
#[global] Instance ledger_bind : MBind ledger_op := fun A B k m p =>
  match m p with
  | (Ok a, p') => k a p'
  | (Raise e, p') => (Raise e, p')
  end.

Definition lift {A : Type} (r : result A) : ledger_op A := fun p => (r, p).

Definition self : ledger_op NaivePortfolio := fun p => (Ok p, p).

(** [self.all_position.append(dp)] *)
Definition append_position (dp : gmap string Z) : ledger_op unit := fun p =>
  (Ok tt, mkPortfolio (symbol_list p) (start_date p) (init_capital p)
            (all_position p ++ [dp]) (current_positions p)
            (all_holdings p) (current_holdings p)).

(** [self.all_holdings.append(dh)] *)
Definition append_holdings (dh : gmap string cell) : ledger_op unit := fun p =>
  (Ok tt, mkPortfolio (symbol_list p) (start_date p) (init_capital p)
            (all_position p) (current_positions p)
            (all_holdings p ++ [dh]) (current_holdings p)).

Definition set_current_positions (d : gmap string Z) : ledger_op unit := fun p =>
  (Ok tt, mkPortfolio (symbol_list p) (start_date p) (init_capital p)
            (all_position p) d (all_holdings p) (current_holdings p)).

Definition set_current_holdings (l : list (gmap string cell)) : ledger_op unit := fun p =>
  (Ok tt, mkPortfolio (symbol_list p) (start_date p) (init_capital p)
            (all_position p) (current_positions p) (all_holdings p) l).

(** [l[k]] and [l[k] = v] where [l] is a list and [k] a string: list
    indices must be integers, [TypeError], whatever the list holds. *)
Definition list_getitem_str (l : list (gmap string cell)) (k : string)
  : result cell := Raise TypeError.

Definition list_setitem_str (l : list (gmap string cell)) (k : string) (v : cell)
  : result (list (gmap string cell)) := Raise TypeError.

(** [self.current_holdings[k]] *)
Definition holdings_getitem (k : string) : ledger_op cell :=
  p ← self; lift (list_getitem_str (current_holdings p) k).

(** [self.current_holdings[k] = v] *)
Definition holdings_setitem (k : string) (v : cell) : ledger_op unit :=
  p ← self;
  l ← lift (list_setitem_str (current_holdings p) k v);
  set_current_holdings l.

(** [self.current_holdings[k] += x] and [-= x]: the old value is read
    first. *)
Definition holdings_iadd (k : string) (x : cell) : ledger_op unit :=
  v ← holdings_getitem k; holdings_setitem k (cell_add v x).

Definition holdings_isub (k : string) (x : cell) : ledger_op unit :=
  v ← holdings_getitem k; holdings_setitem k (cell_sub v x).

(** [x[0]] where [x] is what [get_latest_bars] returned: [None] is not
    subscriptable. *)
Definition first_bar (x : option (list bar)) : result bar :=
  match x with
  | None => Raise TypeError
  | Some l => first l
  end.

(** [{sym: self.bars.get_latest_bars(sym, N=1) for sym in self.symbol_list}] *)
Definition latest_bars (h : HistoricCSVDataHandler) (syms : list string)
  : gmap string (option (list bar)) :=
  list_to_map (map (fun s => (s, get_latest_bars h s 1)) (rev syms)).

(** [for s in self.symbol_list: dp[s] = self.current_positions[s]] *)
Fixpoint copy_positions (cur : gmap string Z) (syms : list string)
    (dp : gmap string Z) : result (gmap string Z) :=
  match syms with
  | [] => Ok dp
  | s :: syms' =>
      v ← getitem cur s;
      copy_positions cur syms' (<[s := v]> dp)
  end.

(** [self.current_positions[s] * bars[s][0][5]]: the position valued at
    the close of the symbol's latest bar. *)
Definition market_value (cur : gmap string Z)
    (bars : gmap string (option (list bar))) (s : string) : result cell :=
  pos ← getitem cur s;
  x ← getitem bars s;
  b ← first_bar x;
  Ok (cell_mul (of_int pos) (bar_close b)).

(** The valuation loop of [update_timeindex]:
    [market_val = current_positions[s] * bars[s][0][5]],
    [dh[s] = market_val], [dh['total'] += market_val]. *)
Fixpoint value_positions (cur : gmap string Z)
    (bars : gmap string (option (list bar))) (syms : list string)
    (dh : gmap string cell) : result (gmap string cell) :=
  match syms with
  | [] => Ok dh
  | s :: syms' =>
      market_val ← market_value cur bars s;
      let dh := <[s := market_val]> dh in
      total ← getitem dh "total";
      let dh := <["total" := cell_add total market_val]> dh in
      value_positions cur bars syms' dh
  end.

(** [update_timeindex]: the positions row is appended before the holdings
    row is begun. *)
Definition update_timeindex (h : HistoricCSVDataHandler) : ledger_op unit :=
  p ← self;
  let bars := latest_bars h (symbol_list p) in
  (* update positions *)
  let dp := zero_dict 0 (symbol_list p) in
  s0 ← lift (first (symbol_list p));
  x0 ← lift (getitem bars s0);
  b0 ← lift (first_bar x0);
  let dp := <["datetime" := bar_datetime b0]> dp in
  dp ← lift (copy_positions (current_positions p) (symbol_list p) dp);
  _ ← append_position dp;
  (* update holdings *)
  let dh := zero_dict (of_int 0) (symbol_list p) in
  s0 ← lift (first (symbol_list p));
  x0 ← lift (getitem bars s0);
  b0 ← lift (first_bar x0);
  let dh := <["datetime" := of_int (bar_datetime b0)]> dh in
  cash ← holdings_getitem "cash";
  let dh := <["cash" := cash]> dh in
  commission ← holdings_getitem "commission";
  let dh := <["commission" := commission]> dh in
  cash' ← holdings_getitem "cash";
  let dh := <["total" := cash']> dh in
  dh ← lift (value_positions (current_positions p) bars (symbol_list p) dh);
  append_holdings dh.

(** [fill_dir]: 1 for ['BUY'], -1 for ['SELL'], 0 otherwise; the two [if]s
    run in sequence. *)
Definition fill_dir (direction : string) : Z :=
  let d := 0 in
  let d := if String.eqb direction "BUY" then 1 else d in
  let d := if String.eqb direction "SELL" then -1 else d in
  d.

Definition update_positions_from_fill (fill : FillEvent) : ledger_op unit :=
  p ← self;
  let fd := fill_dir (fill_direction fill) in
  old ← lift (getitem (current_positions p) (fill_symbol fill));
  set_current_positions
    (<[fill_symbol fill := old + fd * fill_quantity fill]> (current_positions p)).

(** The price of a fill is the close of the symbol's latest bar
    ([get_latest_bars(fill.symbol)[0][5]], with the default [N=1]), not
    the [fill_cost] the event carries. *)
Definition update_holdings_from_fill (h : HistoricCSVDataHandler)
    (fill : FillEvent) : ledger_op unit :=
  let fd := fill_dir (fill_direction fill) in
  b ← lift (first_bar (get_latest_bars h (fill_symbol fill) 1));
  let fill_price := bar_close b in
  let cost := cell_mul (cell_mul (of_int fd) fill_price) (of_int (fill_quantity fill)) in
  _ ← holdings_iadd (fill_symbol fill) cost;
  _ ← holdings_iadd "commission" (Some (fill_commission fill));
  _ ← holdings_isub "cash" (cell_add cost (Some (fill_commission fill)));
  holdings_isub "total" (cell_add cost (Some (fill_commission fill))).

(** [update_fill]: [event.type] is read; on a ['FILL'] event, which only
    a [FillEvent] is, the holdings first, then the positions; an event of
    another type is ignored. *)
Definition update_fill (h : HistoricCSVDataHandler) (ev : event) : ledger_op unit :=
  ty ← lift (event_type ev);
  if attr_is ty "FILL" then
    match ev with
    | FILL fill =>
        _ ← update_holdings_from_fill h fill;
        update_positions_from_fill fill
    | _ => mret tt
    end
  else mret tt.

(** [generate_naive_order]: the four [if]s run in sequence, each
    overwriting [order]; [floor] is [math.floor], an [int].  The product
    [100 * strength] and its floor are exact here, where the code
    multiplies floats: the properties below use the sign of the quantity
    only, never its value. *)
Definition generate_naive_order (p : NaivePortfolio) (signal : SignalEvent)
  : result (option OrderEvent) :=
  let order : option OrderEvent := None in
  let symbol := sig_symbol signal in
  let direction := signal_type signal in
  strength ← match strength signal with
             | Some s => Ok s
             | None => Raise AttributeError
             end;
  let mkt_quantity := Qfloor (100 * strength) in
  cur_quantity ← getitem (current_positions p) symbol;
  let order_type := "MKT" in
  order ← (if String.eqb direction "LONG" && (cur_quantity =? 0)
           then o ← OrderEvent_init symbol order_type mkt_quantity "BUY"; Ok (Some o)
           else Ok order);
  order ← (if String.eqb direction "SHORT" && (cur_quantity =? 0)
           then o ← OrderEvent_init symbol order_type mkt_quantity "SELL"; Ok (Some o)
           else Ok order);
  order ← (if String.eqb direction "EXIT" && (0 <? cur_quantity)
           then o ← OrderEvent_init symbol order_type (Z.abs cur_quantity) "SELL"; Ok (Some o)
           else Ok order);
  order ← (if String.eqb direction "EXIT" && (cur_quantity <? 0)
           then o ← OrderEvent_init symbol order_type (Z.abs cur_quantity) "BUY"; Ok (Some o)
           else Ok order);
  Ok order.

(** [update_signal]: [event.type] is read; on a ['SIGNAL'] event, which
    only a [SignalEvent] is, the order, or [None], is put on the queue; an
    event of another type is ignored. *)
Definition update_signal (p : NaivePortfolio) (events : queue) (ev : event)
  : result queue :=
  ty ← event_type ev;
  if attr_is ty "SIGNAL" then
    match ev with
    | SIGNAL signal =>
        order_event ← generate_naive_order p signal;
        Ok (put events (ORDER <$> order_event))
    | _ => Ok events
    end
  else Ok events.

End Portfolio.

(** ** performance.py *)

Module Performance.

(** [l[i]] with Python's subscript rule: a negative [i] counts from the
    end; out of range raises [IndexError]. *)
Definition py_index {A : Type} (l : list A) (i : Z) : result A :=
  let n := Z.of_nat (length l) in
  let j := if i <? 0 then i + n else i in
  if (j <? 0) || (n <=? j) then Raise IndexError
  else match l !! Z.to_nat j with
       | Some x => Ok x
       | None => Raise IndexError
       end.

(** [max(a, b)] returns [b] only when it is strictly larger. *)
Definition py_max (a b : Q) : Q :=
  if Qlt_le_dec a b then b else a.

(** [x + 1] on a float that may be NaN. *)
Definition succ_cell (x : cell) : cell :=
  match x with
  | Some q => Some (q + 1)%Q
  | None => None
  end.

(** The state of the loop of [create_drawdowns]: the list [hwm] and the
    two series, which start filled with NaN. *)
Record dd_state : Type := mkDD {
  hwm : list Q;
  drawdown : list cell;
  duration : list cell
}.

(** One iteration, at position [t]. *)
Definition dd_step (equity_curve : list Q) (st : dd_state) (t : Z)
  : result dd_state :=
  prev ← py_index (hwm st) (t - 1);
  e ← py_index equity_curve t;
  let cur_hwm := py_max prev e in
  let hwm' := hwm st ++ [cur_hwm] in
  h ← py_index hwm' t;
  let dd := (h - e)%Q in
  let drawdown' := <[Z.to_nat t := Some dd]> (drawdown st) in
  dur ← (if Qeq_bool dd 0 then Ok (Some 0%Q)
         else d ← py_index (duration st) (t - 1); Ok (succ_cell d));
  Ok (mkDD hwm' drawdown' (<[Z.to_nat t := dur]> (duration st))).

Fixpoint dd_loop (equity_curve : list Q) (ts : list Z) (st : dd_state)
  : result dd_state :=
  match ts with
  | [] => Ok st
  | t :: ts' => st' ← dd_step equity_curve st t; dd_loop equity_curve ts' st'
  end.

(** [a < b] on floats: false as soon as one side is NaN. *)
Definition cell_ltb (a b : cell) : bool :=
  match a, b with
  | Some x, Some y => if Qlt_le_dec x y then true else false
  | _, _ => false
  end.

(** [sorted(l, key=lambda obj: obj[0], reverse=True)].  The sort is stable;
    with [reverse=True] the list is reversed, sorted in ascending order
    and reversed again, so that equal keys keep their original order. *)
Fixpoint insert_asc (x : cell * cell) (l : list (cell * cell)) : list (cell * cell) :=
  match l with
  | [] => [x]
  | y :: l' => if cell_ltb (fst x) (fst y) then x :: y :: l'
               else y :: insert_asc x l'
  end.

Definition sort_asc (l : list (cell * cell)) : list (cell * cell) :=
  foldl (fun acc x => insert_asc x acc) [] l.

Definition sorted_reverse (l : list (cell * cell)) : list (cell * cell) :=
  rev (sort_asc (rev l)).

Definition create_drawdowns (equity_curve : list Q) : result (list (cell * cell)) :=
  let n := length equity_curve in
  let st := mkDD [0%Q] (replicate n None) (replicate n None) in
  st ← dd_loop equity_curve (map Z.of_nat (seq 0 n)) st;
  Ok (sorted_reverse (zip (drawdown st) (duration st))).

(** [not s] on a pandas [Series]: the truth value of a Series is
    ambiguous, and asking for it raises [ValueError], whatever the Series
    holds, the empty one included. *)
Definition series_not {A : Type} (s : list A) : result bool := Raise ValueError.

(** [get_max_drawdowns(equity_curve)] on a [Series], the only kind of
    argument whose [index] [create_drawdowns] can read: the guard
    [if not equity_curve] comes first. *)
Definition get_max_drawdowns (equity_curve : list Q) : result (cell * cell) :=
  empty ← series_not equity_curve;
  if (empty : bool) then Raise ValueError
  else
    res ← create_drawdowns equity_curve;
    r0 ← first res;
    Ok (fst r0, snd r0).

(** *** The Sharpe ratio, over the reals *)

(** A numpy float: a real number, or a value that is not finite (inf or
    nan), which is what a division by zero yields, with a warning and
    without an exception. *)
Inductive npfloat : Type :=
| Finite (r : R)
| NonFinite.

Definition np_divide (a b : R) : npfloat :=
  if Req_dec_T b 0 then NonFinite else Finite (a / b)%R.

Definition sum_R (l : list R) : R := foldr Rplus 0%R l.

Definition np_mean (l : list R) : R := (sum_R l / INR (length l))%R.

(** [np.std]: the population standard deviation. *)
Definition np_std (l : list R) : R :=
  let m := np_mean l in
  sqrt (np_mean (map (fun x => ((x - m) * (x - m))%R) l)).

(** [period = {'Daily': 252, 'Hour': 252*6.5, 'Minute': 252*6.5*60}] *)
Definition period : gmap string R :=
  {[ "Daily" := 252%R; "Hour" := (252 * 6.5)%R; "Minute" := (252 * 6.5 * 60)%R ]}.

Definition valid_periods (periods : string) : bool :=
  String.eqb periods "Daily" || String.eqb periods "Hour" || String.eqb periods "Minute".

Definition in_unit_interval (x : R) : bool :=
  (if Rle_dec 0 x then true else false) && (if Rle_dec x 1 then true else false).

(** [get_sharpe_ratio(returns, risk_free=0, periods='Daily')] on a plain
    list of returns, where [if not returns] is the emptiness test;
    [risk_free] is checked but does not enter the ratio. *)
Definition get_sharpe_ratio (returns : list R) (risk_free : R) (periods : string)
  : result npfloat :=
  match returns with
  | [] => Raise ValueError
  | _ =>
      _ ← py_assert (valid_periods periods);
      _ ← py_assert (in_unit_interval risk_free);
      p ← getitem period periods;
      Ok (np_divide (sqrt p * np_mean returns) (np_std returns))
  end.

(** The same function on a pandas [Series], the argument its docstring
    names and [output_summary_stats] passes: the guard asks the Series for
    its truth value. *)
Definition get_sharpe_ratio_series (returns : list R) (risk_free : R)
    (periods : string) : result npfloat :=
  empty ← series_not returns;
  if (empty : bool) then Raise ValueError
  else
    _ ← py_assert (valid_periods periods);
    _ ← py_assert (in_unit_interval risk_free);
    p ← getitem period periods;
    Ok (np_divide (sqrt p * np_mean returns) (np_std returns)).

End Performance.

(** ** main.py: the dispatch loop *)

Module Main.
Import Event Data Portfolio.

Record world : Type := mkWorld {
  bars : HistoricCSVDataHandler;
  port : NaivePortfolio;
  events : queue
}.

Section Loop.

(** The two collaborators that are not part of the repository's core: the
    strategy turns the bars visible at a Market event into signals, the
    broker answers an order with at most one fill. *)
Variable caculate_signal : HistoricCSVDataHandler -> list SignalEvent.
Variable execute_order : HistoricCSVDataHandler -> event -> option FillEvent.

(** The body of the inner loop for an event that is not [None]: the chain
    of tests on [event.type], which is read first. *)
Definition dispatch (ev : event) (w : world) : result world :=
  ty ← event_type ev;
  if attr_is ty "MARKET" then
    let events' :=
      events w ++ map (fun s => Some (SIGNAL s)) (caculate_signal (bars w)) in
    match update_timeindex (bars w) (port w) with
    | (Ok _, port') => Ok (mkWorld (bars w) port' events')
    | (Raise e, _) => Raise e
    end
  else if attr_is ty "SIGNAL" then
    events' ← update_signal (port w) (events w) ev;
    Ok (mkWorld (bars w) (port w) events')
  else if attr_is ty "ORDER" then
    let events' :=
      match execute_order (bars w) ev with
      | Some f => put (events w) (Some (FILL f))
      | None => events w
      end in
    Ok (mkWorld (bars w) (port w) events')
  else if attr_is ty "FILL" then
    match update_fill (bars w) ev (port w) with
    | (Ok _, port') => Ok (mkWorld (bars w) port' (events w))
    | (Raise e, _) => Raise e
    end
  else Ok w.

(** The inner loop: pop the head until the queue is empty; [None] entries
    are skipped.  [None] as a result means the fuel ran out. *)
Fixpoint inner_loop (fuel : nat) (w : world) : option (result world) :=
  match fuel with
  | O => None
  | S fuel' =>
      match events w with
      | [] => Some (Ok w)
      | None :: q => inner_loop fuel' (mkWorld (bars w) (port w) q)
      | Some ev :: q =>
          match dispatch ev (mkWorld (bars w) (port w) q) with
          | Ok w' => inner_loop fuel' w'
          | Raise e => Some (Raise e)
          end
      end
  end.

(** The outer loop: [update_bars] while [continue_backtest] is true, then
    the inner loop; [break] as soon as the flag is found false. *)
Fixpoint outer_loop (fuel : nat) (w : world) : option (result world) :=
  match fuel with
  | O => None
  | S fuel' =>
      if continue_backtest (bars w) then
        match update_bars (bars w) (events w) with
        | Raise e => Some (Raise e)
        | Ok (h', q') =>
            match inner_loop fuel' (mkWorld h' (port w) q') with
            | Some (Ok w') => outer_loop fuel' w'
            | other => other
            end
        end
      else Some (Ok w)
  end.

End Loop.

End Main.

(** * Vocabulary of the properties, and sample data *)

(** ** Commission policy *)

Module CommissionTerms.
Import Event.

(** The per-share rate of the tier a quantity falls in. *)
Definition tier_rate (quantity : Z) : Q :=
  if quantity <=? 500 then 13 # 1000 else 8 # 1000.

(** The cap: 0.5% of quantity times fill price. *)
Definition notional_cap (quantity : Z) (price : Q) : Q :=
  ((5 # 1000) * (inject_Z quantity * price))%Q.

End CommissionTerms.

(** ** The naive sizing policy *)

Module SizingTerms.
Import Event Data Portfolio.

(** What one of the four [if]s of [generate_naive_order] does to [order]. *)
Definition order_if (c : bool) (symbol : string) (quantity : Z)
    (direction : string) (order : option OrderEvent) : result (option OrderEvent) :=
  if c then o ← OrderEvent_init symbol "MKT" quantity direction; Ok (Some o)
  else Ok order.

(** A ledger tracking the single symbol X as the constructor builds it,
    with the given position in X; and a LONG signal on X to which a
    strength of 1.0 has been attached. *)
Definition ledger_X (position : Z) : NaivePortfolio :=
  mkPortfolio ["X"] 0 1000
    (construct_all_positions ["X"] 0) {["X" := position]}
    (construct_all_holdings ["X"] 0 1000) (construct_current_holdings ["X"] 1000).

Definition long_X : SignalEvent := mkSignal "X" 1 "LONG" (Some 1%Q).

(** The object every call of the constructor of [OrderEvent] returns. *)
Definition bare_order : OrderEvent := mkOrderObject ∅ eq_refl.

(** An order has none of the attributes its constructor is given, nor a
    [type]. *)
Definition attributeless (o : OrderEvent) : Prop :=
  getattr_order o "order_type" = Raise AttributeError
  /\ getattr_order o "symbol" = Raise AttributeError
  /\ getattr_order o "quantity" = Raise AttributeError
  /\ getattr_order o "direction" = Raise AttributeError
  /\ print_order o = Raise AttributeError
  /\ event_type (ORDER o) = Raise AttributeError.

End SizingTerms.

(** ** The bar feed *)

Module FeedTerms.
Import Event Data.

(** A feed that has produced two bars for A and knows no other symbol. *)
Definition bar_A (t : Z) (close : Q) : bar :=
  mkBar "A" t (Some close) (Some close) (Some close) (Some close) (Some 100%Q).

Definition feed_A : HistoricCSVDataHandler :=
  mkHandler ["A"] {["A" := Iterrows []]} {["A" := [bar_A 1 10; bar_A 2 11]]} true.

(** A record whose prices are all [price] and whose volume and open
    interest are 100. *)
Definition flat_row (price : Q) : row :=
  mkRow (Some price) (Some price) (Some price) (Some price)
        (Some 100%Q) (Some 100%Q).

(** Symbol A is observed at t1 = 1 and t3 = 3, symbol B at 1, 2 and 3. *)
Definition frame_A : DataFrame :=
  mkDataFrame [(1, flat_row 10); (3, flat_row 30)] eq_refl.

Definition frame_B : DataFrame :=
  mkDataFrame [(1, flat_row 50); (2, flat_row 60); (3, flat_row 70)] eq_refl.

Definition csv_AB : gmap string DataFrame :=
  {[ "A" := frame_A; "B" := frame_B ]}.

(** The handler [__init__] returns, or an empty one when it raises. *)
Definition loaded (csv : gmap string DataFrame) (syms : list string)
  : HistoricCSVDataHandler :=
  match init csv syms with
  | Ok h => h
  | Raise _ => mkHandler [] ∅ ∅ true
  end.

(** The timestamps of an index grow strictly. *)
Definition increasing (idx : list Z) : Prop := StronglySorted Z.lt idx.

(** Every record of the frame is later than [t]. *)
Definition all_later (t : Z) (f : frame) : Prop :=
  Forall (fun e : Z * row => t < fst e) f.

End FeedTerms.

(** ** Performance analytics *)

Module PerformanceTerms.
Import Performance.

(** The drawdown extraction in the words of the specification: at each
    point the running high-water mark, the drawdown below it, and the
    number of periods spent in drawdown, reset at every point where the
    drawdown is zero. *)
Fixpoint drawdowns_from (mark : Q) (periods : Q) (equity_curve : list Q)
  : list (cell * cell) :=
  match equity_curve with
  | [] => []
  | e :: rest =>
      let mark' := py_max mark e in
      let dd := (mark' - e)%Q in
      let periods' := if Qeq_bool dd 0 then 0%Q else (periods + 1)%Q in
      (Some dd, Some periods') :: drawdowns_from mark' periods' rest
  end.

Definition spec_max_drawdown (equity_curve : list Q) : result (cell * cell) :=
  match equity_curve with
  | [] => Raise ValueError
  | e :: _ => first (sorted_reverse (drawdowns_from e 0 equity_curve))
  end.

Definition curve : list Q := [1; 12 # 10; 9 # 10; 11 # 10]%Q.

End PerformanceTerms.

(** ** The ledger *)

Module LedgerTerms.
Import Event Data Portfolio.

(** A feed tracking the single symbol X, whose latest bar closes at 10;
    the ledger the constructor builds over it with a capital of 1000;
    and a fill of a purchase of 10 shares of X, with a commission of 1. *)
Definition bar_X : bar :=
  mkBar "X" 1 (Some 9%Q) (Some 8%Q) (Some 11%Q) (Some 10%Q) (Some 100%Q).

Definition feed_X : HistoricCSVDataHandler :=
  mkHandler ["X"] {["X" := Iterrows []]} {["X" := [bar_X]]} true.

Definition ledger0 : NaivePortfolio := NaivePortfolio_init feed_X 0 1000.

Definition fill_X : FillEvent := FillEvent_init 2 "X" "ARCA" 10 "BUY" 20 (Some 1%Q).


(** The exception of a fill update, which the bar lookup decides: no bar
    produced yet for the symbol, or anything else. *)
Definition fill_exception (x : option (list bar)) : exn :=
  match x with
  | Some [] => IndexError
  | _ => TypeError
  end.

(** The first half of [update_timeindex], up to the positions row. *)
Definition positions_row (h : HistoricCSVDataHandler) (p : NaivePortfolio)
  : result (gmap string Z) :=
  s0 ← first (symbol_list p);
  x0 ← getitem (latest_bars h (symbol_list p)) s0;
  b0 ← first_bar x0;
  copy_positions (current_positions p) (symbol_list p)
    (<["datetime" := bar_datetime b0]> (zero_dict 0 (symbol_list p))).

End LedgerTerms.

(** ** The dispatch loop *)

Module LoopTerms.
Import Event Data Portfolio Main.

(** A strategy that emits no signal and a broker that fills nothing. *)
Definition silent : HistoricCSVDataHandler -> list SignalEvent := fun _ => [].

Definition no_fill : HistoricCSVDataHandler -> event -> option FillEvent :=
  fun _ _ => None.

(** The world at the start of a backtest over [csv] and [syms]: the
    handler as loaded, the ledger built over it, an empty queue. *)
Definition start_world (csv : gmap string DataFrame) (syms : list string) : world :=
  let h := FeedTerms.loaded csv syms in
  mkWorld h (NaivePortfolio_init h 0 1000) [].

End LoopTerms.

(** ** Vocabulary of the further properties *)

Module ExtraTerms.
Import Event Data Portfolio Performance Main.

(** The drawdowns the loop of [create_drawdowns] measures, as a recursion
    over the curve: [b] is the mark the point is measured against and [a]
    the mark the next one is built from, so that a point is measured
    against the greatest of 0 and the values one, three, five ... steps
    before it. *)
Fixpoint lagged_drawdowns (a b : Q) (curve : list Q) : list Q :=
  match curve with
  | [] => []
  | e :: rest => (b - e)%Q :: lagged_drawdowns b (py_max a e) rest
  end.

(** The durations that go with a list of drawdowns: 0 on a drawdown equal
    to zero, otherwise one more than the duration before, [prev] being the
    duration before the first. *)
Fixpoint durations (prev : cell) (dds : list Q) : list cell :=
  match dds with
  | [] => []
  | d :: rest =>
      let x := if Qeq_bool d 0 then Some 0%Q else succ_cell prev in
      x :: durations x rest
  end.

(** The order of the sort keys, on keys that are numbers. *)
Definition key_le (x y : cell * cell) : Prop :=
  match fst x, fst y with
  | Some a, Some b => (a <= b)%Q
  | _, _ => False
  end.

Definition keyed (x : cell * cell) : Prop := is_Some (fst x).

(** A LONG signal on X with a negative strength. *)
Definition long_negative_X : SignalEvent := mkSignal "X" 1 "LONG" (Some (-1)%Q).

(** An EXIT signal on X, and a signal on X of a type the policy does not
    know, both with a strength of 1.0 attached. *)
Definition exit_X : SignalEvent := mkSignal "X" 1 "EXIT" (Some 1%Q).

Definition hold_X : SignalEvent := mkSignal "X" 1 "HOLD" (Some 1%Q).

End ExtraTerms.

(** * Properties *)

(** ** Events and the commission policy (event.py) *)

Module EventFacts.
Import Event.
Import CommissionTerms.

(** The type of an event names its class: among the events, only a
    [MarketEvent] reads ['MARKET'], only a [SignalEvent] ['SIGNAL'] and
    only a [FillEvent] ['FILL']. *)
Lemma event_type_names_class (ev : event) (ty : attr) :
  event_type ev = Ok ty ->
  (attr_is ty "MARKET" = true -> ev = MARKET)
  /\ (attr_is ty "SIGNAL" = true -> exists s, ev = SIGNAL s)
  /\ (attr_is ty "FILL" = true -> exists f, ev = FILL f).
Proof.
  destruct ev as [| s | o | f]; simpl.
  - intros [= <-]. repeat split; [discriminate | discriminate].
  - intros [= <-]. repeat split; [discriminate | eauto | discriminate].
  - unfold getattr_order. pose proof (ord_type o) as Hty. unfold names_order in Hty.
    destruct (ord_attrs o !! "type") as [a |]; [| discriminate].
    intros [= <-]. destruct a as [t | z]; [| discriminate].
    apply String.eqb_eq in Hty as ->. repeat split; discriminate.
  - intros [= <-]. repeat split; [discriminate | discriminate | eauto].
Qed.

Lemma commission_unfold quantity price :
  (caculate_ib_commission quantity price ==
   Qmin (Qmax (13 # 10) (tier_rate quantity * inject_Z quantity))
        (notional_cap quantity price))%Q.
Proof.
  unfold caculate_ib_commission, tier_rate, notional_cap.
  destruct (quantity <=? 500);
    (apply Q.min_compat; [reflexivity | field]).
Qed.

(** C9, as stated, fails: one share filled at 10 costs 0.05, below the
    flat minimum of 1.3. *)
Lemma commission_below_flat_minimum :
  ~ (13 # 10 <= caculate_ib_commission 1 10)%Q.
Proof. vm_compute. intros H. apply H. reflexivity. Qed.

(** C9 (amended): the derived commission is
    [min (max 1.3 (rate * quantity)) cap], with rate 0.013 up to 500
    shares and 0.008 above and cap 0.5% of quantity times fill price.  It
    never exceeds the cap; it is at least the flat minimum 1.3 when the
    cap is, and it is the cap itself when the cap is below 1.3. *)
Theorem commission_tiered_and_capped (quantity : Z) (price : Q) :
  let c := caculate_ib_commission quantity price in
  let cap := notional_cap quantity price in
  (c == Qmin (Qmax (13 # 10) (tier_rate quantity * inject_Z quantity)) cap)%Q
  /\ (quantity <= 500 -> tier_rate quantity = 13 # 1000)
  /\ (500 < quantity -> tier_rate quantity = 8 # 1000)
  /\ (c <= cap)%Q
  /\ ((13 # 10 <= cap)%Q -> (13 # 10 <= c)%Q)
  /\ ((cap < 13 # 10)%Q -> (c == cap)%Q).
Proof.
  intros c cap. subst c cap.
  pose proof (commission_unfold quantity price) as Hc.
  set (m := Qmax (13 # 10) (tier_rate quantity * inject_Z quantity)) in *.
  assert (Hm : (13 # 10 <= m)%Q) by apply Q.le_max_l.
  repeat split.
  - exact Hc.
  - intros H. unfold tier_rate.
    destruct (Z.leb_spec quantity 500); [reflexivity | lia].
  - intros H. unfold tier_rate.
    destruct (Z.leb_spec quantity 500); [lia | reflexivity].
  - rewrite Hc. apply Q.le_min_r.
  - intros H. rewrite Hc. apply Q.min_glb; assumption.
  - intros H. rewrite Hc. apply Q.min_r.
    apply Qlt_le_weak. eapply Qlt_le_trans; eassumption.
Qed.

Lemma commission_tiered_and_capped_witness :
  (13 # 10 <= caculate_ib_commission 600 10)%Q.
Proof.
  apply (proj1 (proj2 (proj2 (proj2 (proj2
           (commission_tiered_and_capped 600 10)))))).
  vm_compute. discriminate.
Defined.

End EventFacts.

(** ** The naive sizing policy (portfolio.py) *)

Module SizingFacts.
Import Event Data Portfolio.
Import SizingTerms.

Lemma OrderEvent_init_bare symbol ty quantity direction o :
  OrderEvent_init symbol ty quantity direction = Ok o -> o = bare_order.
Proof.
  unfold OrderEvent_init, py_assert.
  destruct (String.eqb ty "MKT" || String.eqb ty "LMT"); simpl; [| discriminate].
  destruct (0 <=? quantity); simpl; [| discriminate].
  destruct (String.eqb direction "BUY" || String.eqb direction "SELL"); simpl;
    [| discriminate].
  intros [= <-]. reflexivity.
Qed.

Lemma bare_order_attributeless : attributeless bare_order.
Proof. repeat split. Qed.

Lemma order_if_bare c symbol quantity direction order r :
  (forall o, order = Some o -> o = bare_order) ->
  order_if c symbol quantity direction order = Ok r ->
  forall o, r = Some o -> o = bare_order.
Proof.
  intros Hprev. unfold order_if. destruct c.
  - destruct (OrderEvent_init symbol "MKT" quantity direction) as [o|e] eqn:E;
      simpl; [| discriminate].
    intros [= <-] o' [= <-]. by apply OrderEvent_init_bare in E.
  - intros [= <-]. exact Hprev.
Qed.

Lemma generate_naive_order_ifs p signal :
  generate_naive_order p signal =
  (s ← match strength signal with
       | Some s => Ok s
       | None => Raise AttributeError
       end;
   cur ← getitem (current_positions p) (sig_symbol signal);
   let sym := sig_symbol signal in
   let dir := signal_type signal in
   o1 ← order_if (String.eqb dir "LONG" && (cur =? 0)) sym (Qfloor (100 * s)) "BUY" None;
   o2 ← order_if (String.eqb dir "SHORT" && (cur =? 0)) sym (Qfloor (100 * s)) "SELL" o1;
   o3 ← order_if (String.eqb dir "EXIT" && (0 <? cur)) sym (Z.abs cur) "SELL" o2;
   o4 ← order_if (String.eqb dir "EXIT" && (cur <? 0)) sym (Z.abs cur) "BUY" o3;
   Ok o4).
Proof. reflexivity. Qed.

Lemma generate_naive_order_bare p signal o :
  generate_naive_order p signal = Ok (Some o) -> o = bare_order.
Proof.
  rewrite generate_naive_order_ifs.
  destruct (strength signal) as [s|]; simpl; [| discriminate].
  destruct (getitem (current_positions p) (sig_symbol signal)) as [cur|e];
    simpl; [| discriminate].
  destruct (order_if _ _ _ "BUY" None) as [o1|e] eqn:E1; simpl; [| discriminate].
  destruct (order_if _ _ _ "SELL" o1) as [o2|e] eqn:E2; simpl; [| discriminate].
  destruct (order_if _ _ _ "SELL" o2) as [o3|e] eqn:E3; simpl; [| discriminate].
  destruct (order_if _ _ _ "BUY" o3) as [o4|e] eqn:E4; simpl; [| discriminate].
  intros [= ->].
  eapply order_if_bare; [| exact E4 | reflexivity].
  eapply order_if_bare; [| exact E3].
  eapply order_if_bare; [| exact E2].
  eapply order_if_bare; [| exact E1].
  intros o' [=].
Qed.

(** C6: the code does not do what the claim says.  The sizing policy
    reads the strength of the signal, an attribute that
    [SignalEvent.__init__] never sets: on every signal the constructor
    builds, whatever its direction and the position of its symbol,
    [generate_naive_order] raises [AttributeError] at that lookup, and
    [update_signal] with it; no order is built and nothing is put on the
    queue. *)
Theorem constructed_signal_gets_no_order (p : NaivePortfolio) (events : queue)
    (symbol : string) (datetime : Z) (ty : string) (signal : SignalEvent) :
  SignalEvent_init symbol datetime ty = Ok signal ->
  signal = mkSignal symbol datetime ty None
  /\ generate_naive_order p signal = Raise AttributeError
  /\ update_signal p events (SIGNAL signal) = Raise AttributeError.
Proof.
  unfold SignalEvent_init.
  destruct (py_assert (valid_signal_type ty)); cbn [mbind result_bind];
    [| discriminate].
  intros [= <-]. repeat split.
Qed.

Lemma constructed_signal_gets_no_order_witness :
  mkSignal "X" 1 "LONG" None = mkSignal "X" 1 "LONG" None
  /\ generate_naive_order (ledger_X 0) (mkSignal "X" 1 "LONG" None)
     = Raise AttributeError
  /\ update_signal (ledger_X 0) [] (SIGNAL (mkSignal "X" 1 "LONG" None))
     = Raise AttributeError.
Proof.
  apply (constructed_signal_gets_no_order (ledger_X 0) [] "X" 1 "LONG").
  reflexivity.
Defined.

(** C10: the code does not do what the claim says.  The policy passes
    ['MKT'] to the constructor of every order it builds, and the
    constructor keeps nothing of its arguments: the order that is returned
    and put on the queue has no [order_type], no symbol, quantity or
    direction and no [type]; reading its kind, printing it, or testing its
    [type] as the dispatch loop does raises [AttributeError].  So it is
    for a LONG signal on X to which a strength of 1.0 has been attached,
    with no position in X. *)
Theorem emitted_order_keeps_no_kind :
  (forall symbol ty quantity direction o,
     OrderEvent_init symbol ty quantity direction = Ok o -> attributeless o)
  /\ (forall p signal o,
        generate_naive_order p signal = Ok (Some o) -> attributeless o)
  /\ OrderEvent_init "X" "MKT" 100 "BUY" = Ok bare_order
  /\ generate_naive_order (ledger_X 0) long_X = Ok (Some bare_order)
  /\ update_signal (ledger_X 0) [] (SIGNAL long_X) = Ok [Some (ORDER bare_order)].
Proof.
  split; [| split; [| repeat split]].
  - intros symbol ty quantity direction o Ho.
    apply OrderEvent_init_bare in Ho as ->. exact bare_order_attributeless.
  - intros p signal o Ho.
    apply generate_naive_order_bare in Ho as ->. exact bare_order_attributeless.
Qed.

Lemma emitted_order_keeps_no_kind_witness : attributeless bare_order.
Proof.
  apply (proj1 emitted_order_keeps_no_kind "X" "MKT" 100 "BUY" bare_order).
  reflexivity.
Defined.

End SizingFacts.

(** ** The bar feed (data.py) *)

Module DataFacts.
Import Event Data.
Import FeedTerms.

Lemma slice_from_last {A : Type} (l : list A) (N : Z) :
  1 <= N ->
  slice_from l (- N)
  = drop (length l - Z.to_nat (Z.min N (Z.of_nat (length l))))%nat l.
Proof.
  intros HN. unfold slice_from.
  destruct (Z.ltb_spec (- N) 0); [| lia].
  f_equal. lia.
Qed.

(** C8, as stated, fails on both counts: for a symbol that is not tracked
    the query returns Python's [None], not an empty sequence, and a count
    of zero returns every bar produced so far instead of none. *)
Lemma latest_unknown_symbol_and_zero_count :
  get_latest_bars feed_A "B" 1 <> Some []
  /\ get_latest_bars feed_A "A" 0 = Some [bar_A 1 10; bar_A 2 11].
Proof. split; [discriminate | reflexivity]. Qed.

(** C8 (amended): for a tracked symbol with [k] bars produced and a count of
    at least one, the query returns the last [min count k] bars in the
    order they were produced, oldest first; for a symbol that is not
    tracked it raises nothing and returns [None]. *)
Theorem get_latest_bars_spec (h : HistoricCSVDataHandler) (symbol : string) (N : Z) :
  (forall bar_list,
     latest_symbol_data h !! symbol = Some bar_list -> 1 <= N ->
     let k := length bar_list in
     let m := Z.to_nat (Z.min N (Z.of_nat k)) in
     exists older latest,
       bar_list = older ++ latest
       /\ length latest = m
       /\ get_latest_bars h symbol N = Some latest)
  /\ (latest_symbol_data h !! symbol = None ->
      get_latest_bars h symbol N = None).
Proof.
  split.
  - intros bar_list Hl HN k m.
    exists (take (k - m)%nat bar_list), (drop (k - m)%nat bar_list).
    split; [symmetry; apply take_drop |].
    split.
    + rewrite length_drop. subst k m. lia.
    + unfold get_latest_bars. rewrite Hl. f_equal.
      apply slice_from_last. exact HN.
  - intros Hl. unfold get_latest_bars. rewrite Hl. reflexivity.
Qed.

Lemma get_latest_bars_spec_witness :
  (exists older latest,
     [bar_A 1 10; bar_A 2 11] = older ++ latest
     /\ length latest = 1%nat
     /\ get_latest_bars feed_A "A" 1 = Some latest)
  /\ get_latest_bars feed_A "B" 1 = None.
Proof.
  split.
  - apply (proj1 (get_latest_bars_spec feed_A "A" 1) [bar_A 1 10; bar_A 2 11]);
      [reflexivity | lia].
  - apply (proj2 (get_latest_bars_spec feed_A "B" 1)). reflexivity.
Defined.

(** *** Loading *)

(** C3: the code does not do what the claim says.  The union of the two
    indexes is 1, 2, 3, and [_open_convert_csv_files] computes it and
    drops it: with the symbols listed as A, B both frames are reindexed
    onto the index of A alone.  The handler holds no record at t2 for
    either symbol: the second record of A is its record of t3, not its
    record of t1 carried forward, and the observation of B at t2 is gone.
    No bar has been produced, and the first [update_bars] raises. *)
Theorem forward_fill_uses_first_index_only :
  index_union [1; 3] [1; 2; 3] = [1; 2; 3]
  /\ exists h,
       init csv_AB ["A"; "B"] = Ok h
       /\ symbol_data h !! "A"
          = Some (Iterrows [(1, flat_row 10); (3, flat_row 30)])
       /\ symbol_data h !! "B"
          = Some (Iterrows [(1, flat_row 50); (3, flat_row 70)])
       /\ latest_symbol_data h !! "A" = Some []
       /\ latest_symbol_data h !! "B" = Some []
       /\ update_bars h [] = Raise ValueError.
Proof.
  split; [reflexivity |].
  eexists. split; [vm_compute; reflexivity |].
  repeat split; vm_compute; reflexivity.
Qed.

(** With the symbols listed as B, A the index of the first symbol happens
    to be the union, and the record of A at t1 is carried forward to
    t2. *)
Example forward_fill_when_first_index_is_union :
  exists h,
    init csv_AB ["B"; "A"] = Ok h
    /\ symbol_data h !! "A"
       = Some (Iterrows [(1, flat_row 10); (2, flat_row 10); (3, flat_row 30)]).
Proof.
  eexists. split; [vm_compute; reflexivity |]. vm_compute. reflexivity.
Qed.

End DataFacts.

(** ** Performance analytics (performance.py) *)

Module PerformanceFacts.
Import Performance.
Import PerformanceTerms.

(** *** Drawdowns *)

(** What the loop of [create_drawdowns] computes on the curve: at step [t]
    the mark read back, [hwm[t]], is the one of the step before, so the
    drawdowns are -1, -0.2, 0.3, -0.1, none of them zero, and every
    duration is NaN plus one. *)
Example create_drawdowns_curve :
  create_drawdowns curve
  = Ok [(Some (30 # 100)%Q, None); (Some (-1 # 10)%Q, None);
        (Some (-2 # 10)%Q, None); (Some (-1)%Q, None)].
Proof. vm_compute. reflexivity. Qed.

Example spec_max_drawdown_curve :
  spec_max_drawdown curve = Ok (Some (30 # 100)%Q, Some 1%Q).
Proof. vm_compute. reflexivity. Qed.

(** C4: the code does not do what the claim says.  On the curve
    1.0, 1.2, 0.9, 1.1 [get_max_drawdowns] returns nothing: its guard asks
    the Series for its truth value and raises [ValueError].  Behind the
    guard the first entry of what [create_drawdowns] returns is a drawdown
    of 0.3 with a duration that is NaN, not 1. *)
Theorem max_drawdown_is_never_returned :
  get_max_drawdowns curve = Raise ValueError
  /\ get_max_drawdowns curve <> Ok (Some (3 # 10)%Q, Some 1%Q)
  /\ exists rest,
       create_drawdowns curve = Ok ((Some (30 # 100)%Q, None) :: rest).
Proof.
  split; [reflexivity |]. split; [discriminate |].
  eexists. vm_compute. reflexivity.
Qed.

(** The guard is the same for every curve. *)
Lemma get_max_drawdowns_raises (equity_curve : list Q) :
  get_max_drawdowns equity_curve = Raise ValueError.
Proof. reflexivity. Qed.

(** *** The Sharpe ratio *)

Lemma period_lookup periods :
  period !! periods =
  if String.eqb periods "Daily" then Some 252%R
  else if String.eqb periods "Hour" then Some (252 * 6.5)%R
  else if String.eqb periods "Minute" then Some (252 * 6.5 * 60)%R
  else None.
Proof.
  unfold period.
  destruct (String.eqb_spec periods "Daily") as [-> | H1];
    [by simplify_map_eq |].
  destruct (String.eqb_spec periods "Hour") as [-> | H2];
    [by simplify_map_eq |].
  destruct (String.eqb_spec periods "Minute") as [-> | H3];
    [by simplify_map_eq |].
  by simplify_map_eq.
Qed.


Lemma in_unit_interval_spec (x : R) :
  in_unit_interval x = true <-> (0 <= x <= 1)%R.
Proof.
  unfold in_unit_interval.
  destruct (Rle_dec 0 x), (Rle_dec x 1); simpl; split; intros H;
    try discriminate; try reflexivity; try tauto.
Qed.





(** On a pandas Series the guard of the function raises before anything
    is computed, whatever the series, the rate and the label are. *)
Lemma get_sharpe_ratio_series_raises (returns : list R) (risk_free : R)
    (periods : string) :
  get_sharpe_ratio_series returns risk_free periods = Raise ValueError.
Proof. reflexivity. Qed.

End PerformanceFacts.

(** ** The ledger (portfolio.py) *)

Module LedgerFacts.
Import Event Data Portfolio.
Import LedgerTerms.

Lemma comprehension_lookup {V : Type} (f : string -> V) (syms : list string) s :
  s ∈ syms ->
  (list_to_map (map (fun k => (k, f k)) syms) : gmap string V) !! s = Some (f s).
Proof.
  induction syms as [| s' syms IH]; intros Hs.
  - by apply elem_of_nil in Hs.
  - simpl. destruct (decide (s' = s)) as [-> | Hne].
    + apply lookup_insert_eq.
    + rewrite lookup_insert_ne by done. apply IH.
      apply elem_of_cons in Hs as [-> | Hs]; done.
Qed.

Lemma latest_bars_lookup h syms s :
  s ∈ syms -> latest_bars h syms !! s = Some (get_latest_bars h s 1).
Proof.
  intros Hs. unfold latest_bars.
  apply (comprehension_lookup (fun k => get_latest_bars h k 1)).
  apply list_elem_of_In, in_rev. rewrite rev_involutive.
  by apply list_elem_of_In.
Qed.

(** Every access to the current holdings raises, and leaves the ledger
    as it is. *)
Lemma holdings_getitem_raises k p :
  holdings_getitem k p = (Raise TypeError, p).
Proof. reflexivity. Qed.

Lemma holdings_iadd_raises k x p :
  holdings_iadd k x p = (Raise TypeError, p).
Proof. reflexivity. Qed.

Lemma update_holdings_from_fill_outcome h fill p :
  update_holdings_from_fill h fill p
  = (Raise (fill_exception (get_latest_bars h (fill_symbol fill) 1)), p).
Proof.
  unfold update_holdings_from_fill.
  destruct (get_latest_bars h (fill_symbol fill) 1) as [[| b rest] |];
    reflexivity.
Qed.

Lemma update_fill_outcome h fill p :
  update_fill h (FILL fill) p
  = (Raise (fill_exception (get_latest_bars h (fill_symbol fill) 1)), p).
Proof.
  unfold update_fill, mbind, ledger_bind, lift. cbn [event_type attr_is].
  change (String.eqb "FILL" "FILL") with true. cbv beta iota.
  rewrite update_holdings_from_fill_outcome. reflexivity.
Qed.

Lemma update_timeindex_outcome h p :
  update_timeindex h p
  = match positions_row h p with
    | Raise e => (Raise e, p)
    | Ok dp =>
        (Raise TypeError,
         mkPortfolio (symbol_list p) (start_date p) (init_capital p)
           (all_position p ++ [dp]) (current_positions p)
           (all_holdings p) (current_holdings p))
    end.
Proof.
  unfold update_timeindex, positions_row.
  unfold mbind, ledger_bind, result_bind, self, lift, append_position,
    holdings_getitem, list_getitem_str.
  cbv beta iota.
  destruct (first (symbol_list p)) as [s0 |]; cbv beta iota; [| reflexivity].
  destruct (getitem (latest_bars h (symbol_list p)) s0) as [x0 |];
    cbv beta iota; [| reflexivity].
  destruct (first_bar x0) as [b0 |]; cbv beta iota; [| reflexivity].
  destruct (copy_positions _ _ _) as [dp |]; cbv beta iota; reflexivity.
Qed.

(** C2: the code does not do what the claim says.  The ledger keeps in
    [current_holdings] the one-element list that
    [construct_current_holdings] returns, and
    [update_holdings_from_fill] subscripts it with the symbol of the
    fill: for every fill, whatever its direction, the update raises
    before anything is stored ([TypeError]; [IndexError] when the feed has
    produced no bar for the symbol) and leaves the ledger as it was: no
    delta is added to the position, nothing to the holdings, nothing is
    taken from cash.  So it is for the purchase of 10 shares of X on the
    ledger the constructor builds. *)
Theorem fill_update_raises (h : HistoricCSVDataHandler) (p : NaivePortfolio)
    (fill : FillEvent) :
  update_fill h (FILL fill) p
  = (Raise (fill_exception (get_latest_bars h (fill_symbol fill) 1)), p)
  /\ (forall b rest,
        get_latest_bars h (fill_symbol fill) 1 = Some (b :: rest) ->
        update_fill h (FILL fill) p = (Raise TypeError, p))
  /\ update_fill feed_X (FILL fill_X) ledger0 = (Raise TypeError, ledger0)
  /\ current_positions ledger0 !! "X" = Some 0
  /\ current_holdings ledger0
     = [ {[ "X" := Some 0%Q; "cash" := Some 1000%Q;
            "commission" := Some 0%Q; "total" := Some 1000%Q ]} ].
Proof.
  split; [apply update_fill_outcome |]. split.
  - intros b rest Hb. rewrite update_fill_outcome, Hb. reflexivity.
  - repeat split.
Qed.

Lemma fill_update_raises_witness :
  update_fill feed_X (FILL fill_X) ledger0 = (Raise TypeError, ledger0).
Proof.
  apply (proj1 (proj2 (fill_update_raises feed_X ledger0 fill_X)) bar_X []).
  reflexivity.
Defined.


End LedgerFacts.

(** ** The dispatch loop (main.py) *)

Module LoopFacts.
Import Event Data Portfolio Main.
Import FeedTerms LoopTerms.

(** *** What loading leaves in [symbol_data] *)

Lemma read_files_keys csv syms : forall comb sd lsd comb' sd' lsd',
  read_files csv syms comb sd lsd = Ok (comb', sd', lsd') ->
  forall k, is_Some (sd' !! k) <-> is_Some (sd !! k) \/ k ∈ syms.
Proof.
  induction syms as [| s syms IH]; intros comb sd lsd comb' sd' lsd' Hrun k.
  - injection Hrun as _ <- _. split; [auto | intros [H | H]; [done |]].
    by apply elem_of_nil in H.
  - simpl in Hrun. destruct (read_csv csv s) as [f |]; [| discriminate].
    cbn [mbind result_bind] in Hrun.
    rewrite (IH _ _ _ _ _ _ Hrun k), elem_of_cons.
    destruct (decide (k = s)) as [-> | Hne].
    + rewrite lookup_insert_eq. split; [auto | intros _; left; by eexists].
    + rewrite lookup_insert_ne by done. tauto.
Qed.

Lemma reindex_all_keys c syms : forall sd sd',
  reindex_all syms c sd = Ok sd' ->
  forall k, is_Some (sd' !! k) <-> is_Some (sd !! k).
Proof.
  induction syms as [| s syms IH]; intros sd sd' Hrun k.
  - by injection Hrun as <-.
  - simpl in Hrun. unfold getitem in Hrun.
    destruct (sd !! s) as [v |] eqn:Ev; [| discriminate].
    cbn [mbind result_bind] in Hrun.
    destruct v as [f | it]; [| discriminate].
    cbn [mbind result_bind] in Hrun.
    rewrite (IH _ _ Hrun k).
    destruct (decide (k = s)) as [-> | Hne].
    + rewrite lookup_insert_eq, Ev. split; intros _; by eexists.
    + by rewrite lookup_insert_ne.
Qed.

(** A handler that [__init__] returns holds, under [symbol_data], exactly
    the symbols of its list. *)
Lemma init_keys csv syms h :
  init csv syms = Ok h ->
  Data.symbol_list h = syms
  /\ continue_backtest h = true
  /\ (forall k, is_Some (symbol_data h !! k) <-> k ∈ syms).
Proof.
  unfold init, _open_convert_csv_files.
  destruct (read_files csv syms None ∅ ∅) as [[[comb sd] lsd] |] eqn:Er;
    cbn [mbind result_bind]; [| discriminate].
  assert (Hk : forall k, is_Some (sd !! k) <-> k ∈ syms).
  { intros k. rewrite (read_files_keys _ _ _ _ _ _ _ _ Er k), lookup_empty.
    split; [intros [[? [=]] | H]; exact H | auto]. }
  destruct comb as [c |].
  - destruct (reindex_all syms c sd) as [sd' |] eqn:Ere;
      cbn [mbind result_bind]; [| discriminate].
    intros [= <-]. cbn. repeat split; try apply Hk.
    + intros H. apply Hk. by apply (reindex_all_keys _ _ _ _ Ere k).
    + intros H. apply (reindex_all_keys _ _ _ _ Ere k). by apply Hk.
  - cbn [mbind result_bind]. intros [= <-]. cbn. repeat split; apply Hk.
Qed.

(** *** An advance over symbols *)

Lemma dict_keys_elem {V : Type} (d : gmap string V) k :
  k ∈ dict_keys d <-> is_Some (d !! k).
Proof.
  unfold dict_keys. rewrite list_elem_of_fmap. split.
  - intros ([k' v] & -> & Hin). apply elem_of_map_to_list in Hin. by eexists.
  - intros [v Hv]. exists (k, v). split; [reflexivity |].
    by apply elem_of_map_to_list.
Qed.

(** With at least one symbol in the dict and none of them the empty
    string, the generator raises at its first step, for whichever symbol
    it was made. *)
Lemma get_new_bar_raises h s k :
  is_Some (symbol_data h !! k) ->
  (forall k', is_Some (symbol_data h !! k') -> k' <> "") ->
  _get_new_bar_next h s = Raise ValueError.
Proof.
  intros Hk Hne. unfold _get_new_bar_next.
  destruct (dict_keys (symbol_data h)) as [| b keys] eqn:Ekeys.
  - apply dict_keys_elem in Hk. rewrite Ekeys in Hk. by apply elem_of_nil in Hk.
  - assert (Hb : is_Some (symbol_data h !! b)).
    { apply dict_keys_elem. rewrite Ekeys. left. }
    specialize (Hne b Hb). destruct b as [| c b]; [done | reflexivity].
Qed.

Lemma update_bars_raises h q s syms k :
  Data.symbol_list h = s :: syms ->
  is_Some (symbol_data h !! k) ->
  (forall k', is_Some (symbol_data h !! k') -> k' <> "") ->
  update_bars h q = Raise ValueError.
Proof.
  intros Hsyms Hk Hne. unfold update_bars. rewrite Hsyms. simpl.
  unfold update_bar. rewrite (get_new_bar_raises h s k Hk Hne). reflexivity.
Qed.

Section LoopProperties.

Variable caculate_signal : HistoricCSVDataHandler -> list SignalEvent.
Variable execute_order : HistoricCSVDataHandler -> event -> option FillEvent.

Abbreviation outer_loop := (outer_loop caculate_signal execute_order).

(** C7: the code does not do what the claim says.  The feed never finds
    itself exhausted.  On every handler loaded for at least one symbol,
    whatever the records of the files are, the generator behind
    [update_bars] walks the names of the symbols instead of the records
    of its symbol and raises [ValueError] at its first step,
    [StopIteration] never: the flag [continue_backtest] stays true,
    [update_bars] raises whatever the queue holds, and the dispatch loop
    is ended by that exception at its first advance, not by the flag. *)
Theorem exhaustion_is_never_detected (csv : gmap string DataFrame)
    (syms : list string) (h : HistoricCSVDataHandler) :
  init csv syms = Ok h -> syms <> [] -> "" ∉ syms ->
  continue_backtest h = true
  /\ (forall s, _get_new_bar_next h s = Raise ValueError)
  /\ (forall q, update_bars h q = Raise ValueError)
  /\ (forall p q fuel,
        outer_loop (S fuel) (mkWorld h p q) = Some (Raise ValueError)).
Proof.
  intros Hinit Hne Hempty.
  destruct (init_keys _ _ _ Hinit) as (Hsyms & Hflag & Hkeys).
  destruct syms as [| s0 syms]; [done |].
  assert (Hk0 : is_Some (symbol_data h !! s0)) by (apply Hkeys; left).
  assert (Hnames : forall k', is_Some (symbol_data h !! k') -> k' <> "").
  { intros k' Hk' ->. apply Hempty. by apply Hkeys. }
  split; [exact Hflag |]. split.
  { intros s. by apply (get_new_bar_raises h s s0). }
  assert (Hub : forall q, update_bars h q = Raise ValueError).
  { intros q. by apply (update_bars_raises h q s0 syms s0). }
  split; [exact Hub |].
  intros p q fuel. simpl. rewrite Hflag, Hub. reflexivity.
Qed.

End LoopProperties.

Lemma init_AB : init csv_AB ["A"; "B"] = Ok (loaded csv_AB ["A"; "B"]).
Proof. vm_compute. reflexivity. Qed.

Lemma exhaustion_is_never_detected_witness :
  continue_backtest (loaded csv_AB ["A"; "B"]) = true
  /\ (forall s, _get_new_bar_next (loaded csv_AB ["A"; "B"]) s = Raise ValueError)
  /\ (forall q, update_bars (loaded csv_AB ["A"; "B"]) q = Raise ValueError)
  /\ (forall p q fuel,
        Main.outer_loop silent no_fill (S fuel)
          (mkWorld (loaded csv_AB ["A"; "B"]) p q)
        = Some (Raise ValueError)).
Proof.
  apply (exhaustion_is_never_detected silent no_fill csv_AB ["A"; "B"]).
  - exact init_AB.
  - discriminate.
  - intros H. apply elem_of_cons in H as [H | H]; [discriminate |].
    apply list_elem_of_singleton in H. discriminate.
Defined.

End LoopFacts.

(** * Further properties of the code *)

(** ** The commission schedule (event.py) *)

Module CommissionExtra.
Import Event.
Import CommissionTerms.

Lemma tier_rate_pos quantity : (0 < tier_rate quantity)%Q.
Proof. unfold tier_rate. destruct (quantity <=? 500); reflexivity. Qed.

Lemma cap_nonneg quantity price :
  0 <= quantity -> (0 <= price)%Q -> (0 <= notional_cap quantity price)%Q.
Proof.
  intros Hq Hp. unfold notional_cap.
  apply Qmult_le_0_compat; [discriminate |].
  apply Qmult_le_0_compat; [| exact Hp].
  change 0%Q with (inject_Z 0). rewrite <- Zle_Qle. exact Hq.
Qed.

(** X1: The commission of a fill of a non-negative quantity at a non-negative
    price is never negative, and it is zero when the quantity or the price
    is zero: the cap of 0.5% of the notional wins over the flat minimum. *)
Theorem commission_nonnegative (quantity : Z) (price : Q) :
  0 <= quantity -> (0 <= price)%Q ->
  (0 <= caculate_ib_commission quantity price)%Q
  /\ (quantity = 0 \/ (price == 0)%Q ->
      (caculate_ib_commission quantity price == 0)%Q).
Proof.
  intros Hq Hp.
  pose proof (EventFacts.commission_unfold quantity price) as Hc.
  pose proof (cap_nonneg quantity price Hq Hp) as Hcap.
  set (m := Qmax (13 # 10) (tier_rate quantity * inject_Z quantity)) in *.
  assert (Hm : (13 # 10 <= m)%Q) by apply Q.le_max_l.
  assert (Hm0 : (0 <= m)%Q).
  { eapply Qle_trans; [| exact Hm]. discriminate. }
  split.
  - rewrite Hc. apply Q.min_glb; assumption.
  - intros Hz.
    assert (Hcap0 : (notional_cap quantity price == 0)%Q).
    { unfold notional_cap. destruct Hz as [-> | Hz]; [| rewrite Hz]; ring. }
    rewrite Hc, Q.min_r; [exact Hcap0 |]. rewrite Hcap0. exact Hm0.
Qed.

Lemma commission_nonnegative_witness :
  (0 <= caculate_ib_commission 0 10)%Q
  /\ (0 = 0 \/ (10 == 0)%Q -> (caculate_ib_commission 0 10 == 0)%Q).
Proof. apply (commission_nonnegative 0 10); [lia | discriminate]. Defined.

(** X2: The commission grows with the fill price: at a fixed non-negative
    quantity a higher price never gives a lower commission. *)
Theorem commission_monotone_in_price (quantity : Z) (p1 p2 : Q) :
  0 <= quantity -> (p1 <= p2)%Q ->
  (caculate_ib_commission quantity p1 <= caculate_ib_commission quantity p2)%Q.
Proof.
  intros Hq Hp.
  rewrite !EventFacts.commission_unfold.
  apply Q.min_le_compat_l. unfold notional_cap.
  apply Qmult_le_l; [reflexivity |].
  rewrite !(Qmult_comm (inject_Z quantity)).
  apply Qmult_le_compat_r; [exact Hp |].
  change 0%Q with (inject_Z 0). rewrite <- Zle_Qle. exact Hq.
Qed.

Lemma commission_monotone_in_price_witness :
  (caculate_ib_commission 100 1 <= caculate_ib_commission 100 50)%Q.
Proof. apply (commission_monotone_in_price 100 1 50); [lia | discriminate]. Defined.

(** X3: The schedule is not monotone in the quantity: with a price of at least
    2.6, where the cap does not bind at 500 shares, every order of 501 to
    812 shares is charged less than an order of 500 shares. *)
Theorem commission_drops_across_threshold (quantity : Z) (price : Q) :
  500 < quantity <= 812 -> (26 # 10 <= price)%Q ->
  (caculate_ib_commission quantity price < caculate_ib_commission 500 price)%Q.
Proof.
  intros [Hlo Hhi] Hp.
  assert (H500 : (caculate_ib_commission 500 price == 65 # 10)%Q).
  { rewrite EventFacts.commission_unfold.
    replace (tier_rate 500) with (13 # 1000)%Q by reflexivity.
    assert (Hmax : (Qmax (13 # 10) ((13 # 1000) * inject_Z 500) == 65 # 10)%Q)
      by (vm_compute; reflexivity).
    rewrite Hmax.
    apply Q.min_l. unfold notional_cap.
    assert (Hcap : (65 # 10 == (5 # 1000) * (inject_Z 500 * (26 # 10)))%Q)
      by (vm_compute; reflexivity).
    rewrite Hcap.
    apply Qmult_le_l; [reflexivity |].
    apply Qmult_le_l; [reflexivity | exact Hp]. }
  rewrite H500.
  eapply Qle_lt_trans.
  { rewrite EventFacts.commission_unfold. apply Q.le_min_l. }
  unfold tier_rate. destruct (Z.leb_spec quantity 500); [lia |].
  apply Q.max_lub_lt; [reflexivity |].
  unfold Qlt, Qmult, inject_Z. simpl. lia.
Qed.

Lemma commission_drops_across_threshold_witness :
  (caculate_ib_commission 501 10 < caculate_ib_commission 500 10)%Q.
Proof.
  apply (commission_drops_across_threshold 501 10); [lia | discriminate].
Defined.

End CommissionExtra.

(** ** The bar feed (data.py) *)

Module FeedExtra.
Import Event Data.
Import FeedTerms ExtraTerms.

(** *** Forward fill *)

Lemma pad_fold_later t (f : frame) acc :
  all_later t f ->
  foldl (fun a (e : Z * row) => if fst e <=? t then snd e else a) acc f = acc.
Proof.
  revert acc. induction f as [| e f IH]; intros acc Hall; [reflexivity |].
  apply Forall_cons in Hall as [He Hall]. simpl.
  destruct (Z.leb_spec (fst e) t); [lia |]. by apply IH.
Qed.

(** [reindex(..., method='pad')] carries the last record forward: at a
    label [t] the frame contributes its record [r] of label [u <= t] when
    every record after it is later than [t], and a row of NaN when all its
    records are later than [t]. *)
Lemma pad_lookup_split (f1 f2 : frame) (u t : Z) (r : row) :
  u <= t -> all_later t f2 ->
  pad_lookup (f1 ++ (u, r) :: f2) t = r
  /\ pad_lookup f2 t = nan_row.
Proof.
  intros Hu Hall. unfold pad_lookup. split.
  - rewrite foldl_app. simpl.
    destruct (Z.leb_spec u t); [| lia]. by apply pad_fold_later.
  - by apply pad_fold_later.
Qed.

Lemma increasing_tail_later (e : Z * row) (f : frame) :
  increasing (index (e :: f)) -> all_later (fst e) f.
Proof.
  unfold increasing, index, all_later. simpl. intros H.
  apply StronglySorted_inv in H as [_ H].
  induction f as [| e' f IH]; [constructor |].
  simpl in H. apply Forall_cons in H as [He H].
  constructor; [exact He | by apply IH].
Qed.

Lemma reindex_own_index_suffix (f1 f2 : frame) :
  increasing (index (f1 ++ f2)) ->
  map (fun t => (t, pad_lookup (f1 ++ f2) t)) (index f2) = f2.
Proof.
  revert f1. induction f2 as [| [u r] f2 IH]; intros f1 Hs; [reflexivity |].
  simpl. f_equal.
  - f_equal.
    apply (pad_lookup_split f1 f2 u u r); [lia |].
    assert (Hs2 : increasing (index ((u, r) :: f2))).
    { unfold increasing, index in *. rewrite map_app in Hs.
      revert Hs. clear. induction (map fst f1) as [| a l IHl]; simpl; intros H.
      - exact H.
      - apply StronglySorted_inv in H as [H _]. by apply IHl. }
    apply (increasing_tail_later (u, r) f2 Hs2).
  - specialize (IH (f1 ++ [(u, r)])).
    rewrite <- app_assoc in IH. simpl in IH. by apply IH.
Qed.

Lemma increasingb_increasing (idx : list Z) :
  increasingb idx = true -> increasing idx.
Proof.
  intros H. apply Sorted_StronglySorted; [intros x y z; lia |].
  induction idx as [| t rest IH]; [constructor |].
  destruct rest as [| u rest'].
  - repeat constructor.
  - simpl in H. apply andb_true_iff in H as [Htu Hrest].
    constructor; [by apply IH |]. constructor. by apply Z.ltb_lt.
Qed.

(** Reindexing a frame onto its own index gives its records back. *)
Lemma reindex_own_index (f : DataFrame) :
  reindex_pad f (index (df_records f)) = df_records f.
Proof.
  apply (reindex_own_index_suffix [] (df_records f)).
  apply increasingb_increasing, df_increasing.
Qed.

(** *** Loading *)

Lemma read_csv_Some csv s f : csv !! s = Some f -> read_csv csv s = Ok f.
Proof. unfold read_csv. by intros ->. Qed.

Lemma getitem_Some {V : Type} (d : gmap string V) k v :
  d !! k = Some v -> getitem d k = Ok v.
Proof. unfold getitem. by intros ->. Qed.

(** The first loop, when every file is there: the frames of the symbols
    are those of the directory, the bars produced are reset, and the
    combined index is the one it started from or, when it started from
    none, the index of the first symbol. *)
Lemma read_files_effect csv syms : forall comb sd lsd,
  (forall s, s ∈ syms -> is_Some (csv !! s)) ->
  exists sd' lsd',
    read_files csv syms comb sd lsd
    = Ok (match comb, syms with
          | Some c, _ => Some c
          | None, s0 :: _ => (fun f => index (df_records f)) <$> csv !! s0
          | None, [] => None
          end, sd', lsd')
    /\ (forall s, s ∈ syms -> sd' !! s = Frame <$> csv !! s /\ lsd' !! s = Some [])
    /\ (forall s, s ∉ syms -> sd' !! s = sd !! s /\ lsd' !! s = lsd !! s).
Proof.
  induction syms as [| s0 syms IH]; intros comb sd lsd Hall.
  - exists sd, lsd. simpl. split; [by destruct comb |].
    split; [by intros s ?%elem_of_nil | done].
  - destruct (Hall s0) as [f Hf]; [left |].
    simpl. rewrite (read_csv_Some _ _ _ Hf). cbn [mbind result_bind].
    destruct (IH (match comb with
                  | Some c => Some c
                  | None => Some (index (df_records f))
                  end) (<[s0 := Frame f]> sd) (<[s0 := []]> lsd))
      as (sd' & lsd' & Hrun & Hin & Hout).
    { intros s Hs. apply Hall. by right. }
    exists sd', lsd'. split.
    { rewrite Hf. simpl. destruct comb as [c |].
      - rewrite Hrun. reflexivity.
      - rewrite Hrun. reflexivity. }
    split.
    + intros s Hs. destruct (decide (s ∈ syms)) as [Hs' | Hs']; [by apply Hin |].
      apply elem_of_cons in Hs as [-> | Hs]; [| done].
      destruct (Hout s0 Hs') as [H1 H2].
      rewrite H1, H2, !lookup_insert_eq, Hf. done.
    + intros s Hs. apply not_elem_of_cons in Hs as [Hne Hs].
      destruct (Hout s Hs) as [H1 H2].
      rewrite H1, H2. by rewrite !lookup_insert_ne.
Qed.

Lemma read_files_missing csv syms : forall comb sd lsd s,
  s ∈ syms -> csv !! s = None ->
  read_files csv syms comb sd lsd = Raise IOError.
Proof.
  induction syms as [| s0 syms IH]; intros comb sd lsd s Hs Hnone.
  - by apply elem_of_nil in Hs.
  - simpl. unfold read_csv at 1. destruct (csv !! s0) as [f |] eqn:Ef.
    + cbn [mbind result_bind].
      apply elem_of_cons in Hs as [-> | Hs]; [congruence |].
      by apply (IH _ _ _ s).
    + reflexivity.
Qed.

(** The second loop, over distinct symbols that all have a frame. *)
Lemma reindex_all_effect c syms : forall sd,
  NoDup syms ->
  (forall s, s ∈ syms -> exists f, sd !! s = Some (Frame f)) ->
  exists sd',
    reindex_all syms c sd = Ok sd'
    /\ (forall s f, s ∈ syms -> sd !! s = Some (Frame f) ->
        sd' !! s = Some (Iterrows (reindex_pad f c)))
    /\ (forall s, s ∉ syms -> sd' !! s = sd !! s).
Proof.
  induction syms as [| s0 syms IH]; intros sd Hnd Hall.
  - exists sd. split; [done |]. split; [by intros s f ?%elem_of_nil | done].
  - apply NoDup_cons in Hnd as [Hs0 Hnd].
    destruct (Hall s0) as [f0 Hf0]; [left |].
    simpl. rewrite (getitem_Some _ _ _ Hf0). cbn [mbind result_bind].
    destruct (IH (<[s0 := Iterrows (reindex_pad f0 c)]> sd) Hnd)
      as (sd' & Hrun & Hin & Hout).
    { intros s Hs. rewrite lookup_insert_ne by (by intros ->).
      apply Hall. by right. }
    exists sd'. split; [exact Hrun |]. split.
    + intros s f Hs Hf. apply elem_of_cons in Hs as [-> | Hs].
      * rewrite (Hout s0 Hs0), lookup_insert_eq. congruence.
      * apply Hin; [done |]. rewrite lookup_insert_ne by (by intros ->). done.
    + intros s Hs. apply not_elem_of_cons in Hs as [Hne Hs].
      rewrite (Hout s Hs). by rewrite lookup_insert_ne.
Qed.

Lemma init_loaded (csv : gmap string DataFrame)
    (s0 : string) (syms : list string) (f0 : DataFrame) :
  NoDup (s0 :: syms) ->
  csv !! s0 = Some f0 ->
  (forall s, s ∈ syms -> is_Some (csv !! s)) ->
  exists h,
    init csv (s0 :: syms) = Ok h
    /\ Data.symbol_list h = s0 :: syms
    /\ continue_backtest h = true
    /\ (forall s, s ∈ s0 :: syms ->
        latest_symbol_data h !! s = Some []
        /\ exists f, csv !! s = Some f
                    /\ symbol_data h !! s
                       = Some (Iterrows (reindex_pad f (index (df_records f0))))).
Proof.
  intros Hnd Hf0 Hall.
  assert (Hall' : forall s, s ∈ s0 :: syms -> is_Some (csv !! s)).
  { intros s Hs. apply elem_of_cons in Hs as [-> | Hs]; [eauto | by apply Hall]. }
  destruct (read_files_effect csv (s0 :: syms) None ∅ ∅ Hall')
    as (sd & lsd & Hread & Hin & _).
  rewrite Hf0 in Hread. cbn [fmap option_fmap option_map] in Hread.
  destruct (reindex_all_effect (index (df_records f0)) (s0 :: syms) sd Hnd)
    as (sd' & Hre & Hin' & _).
  { intros s Hs. rewrite (proj1 (Hin s Hs)).
    destruct (Hall' s Hs) as [f ->]. by exists f. }
  exists (mkHandler (s0 :: syms) sd' lsd true).
  split.
  { unfold init, _open_convert_csv_files. rewrite Hread.
    cbn [mbind result_bind]. rewrite Hre. reflexivity. }
  split; [reflexivity |]. split; [reflexivity |].
  intros s Hs. split; [apply (Hin s Hs) |].
  destruct (Hall' s Hs) as [f Hf]. exists f. split; [done |].
  apply Hin'; [done |]. rewrite (proj1 (Hin s Hs)), Hf. done.
Qed.

(** X4: Loading distinct symbols whose files are all there: the records of
    every symbol are reindexed onto the index of the first symbol of the
    list, whatever the timestamps of the other symbols are, and wait in
    its row iterator; the records of the first symbol are left as they
    are; no bar has been produced and the replay is on. *)
Theorem init_reindexes_onto_first_symbol (csv : gmap string DataFrame)
    (s0 : string) (syms : list string) (f0 : DataFrame) :
  NoDup (s0 :: syms) ->
  csv !! s0 = Some f0 ->
  (forall s, s ∈ syms -> is_Some (csv !! s)) ->
  exists h,
    init csv (s0 :: syms) = Ok h
    /\ Data.symbol_list h = s0 :: syms
    /\ continue_backtest h = true
    /\ (forall s, s ∈ s0 :: syms ->
        latest_symbol_data h !! s = Some []
        /\ exists f, csv !! s = Some f
                    /\ symbol_data h !! s
                       = Some (Iterrows (reindex_pad f (index (df_records f0)))))
    /\ symbol_data h !! s0 = Some (Iterrows (df_records f0)).
Proof.
  intros Hnd Hf0 Hall.
  destruct (init_loaded csv s0 syms f0 Hnd Hf0 Hall)
    as (h & Hinit & Hsyms & Hflag & Hin).
  exists h. repeat (split; [assumption |]).
  destruct (Hin s0) as (_ & f & Hf & Hsd); [left |].
  rewrite Hsd. do 2 f_equal.
  assert (f = f0) as -> by congruence.
  apply reindex_own_index.
Qed.

Lemma NoDup_AB : NoDup ["A"; "B"].
Proof.
  apply NoDup_cons. split.
  - intros H. apply list_elem_of_singleton in H. discriminate.
  - apply NoDup_singleton.
Qed.

Lemma init_reindexes_onto_first_symbol_witness :
  exists h,
    init csv_AB ["A"; "B"] = Ok h
    /\ Data.symbol_list h = ["A"; "B"]
    /\ continue_backtest h = true
    /\ (forall s, s ∈ ["A"; "B"] ->
        latest_symbol_data h !! s = Some []
        /\ exists f, csv_AB !! s = Some f
                    /\ symbol_data h !! s
                       = Some (Iterrows (reindex_pad f (index (df_records frame_A)))))
    /\ symbol_data h !! "A" = Some (Iterrows (df_records frame_A)).
Proof.
  apply (init_reindexes_onto_first_symbol csv_AB "A" ["B"]).
  - exact NoDup_AB.
  - reflexivity.
  - intros s Hs. apply list_elem_of_singleton in Hs as ->. by eexists.
Defined.

(** X5: Loading distinct symbols raises [IOError] exactly when the file of
    some symbol is missing, and returns a handler when every file is
    there. *)
Theorem init_fails_on_missing_file (csv : gmap string DataFrame) (syms : list string) :
  NoDup syms ->
  (init csv syms = Raise IOError <-> exists s, s ∈ syms /\ csv !! s = None)
  /\ ((forall s, s ∈ syms -> is_Some (csv !! s)) -> exists h, init csv syms = Ok h).
Proof.
  intros Hnd.
  assert (Hok : (forall s, s ∈ syms -> is_Some (csv !! s)) ->
                exists h, init csv syms = Ok h).
  { intros Hall. destruct syms as [| s0 syms].
    - eexists. reflexivity.
    - destruct (Hall s0) as [f0 Hf0]; [left |].
      destruct (init_loaded csv s0 syms f0 Hnd Hf0)
        as (h & Hh & _); [| eauto].
      intros s Hs. apply Hall. by right. }
  split; [| exact Hok]. split.
  - intros Hfail.
    destruct (decide (Forall (fun s => is_Some (csv !! s)) syms)) as [Hall | Hnot].
    + rewrite Forall_forall in Hall.
      destruct (Hok Hall) as [h Hh]. congruence.
    + apply not_Forall_Exists in Hnot; [| intros s; apply _].
      apply Exists_exists in Hnot as (s & Hs & Hnone).
      exists s. split; [done |]. by apply eq_None_not_Some.
  - intros (s & Hs & Hnone).
    unfold init, _open_convert_csv_files.
    rewrite (read_files_missing csv syms _ _ _ s Hs Hnone). reflexivity.
Qed.

Lemma init_fails_on_missing_file_witness :
  (init csv_AB ["A"; "B"] = Raise IOError
   <-> exists s, s ∈ ["A"; "B"] /\ csv_AB !! s = None)
  /\ ((forall s, s ∈ ["A"; "B"] -> is_Some (csv_AB !! s)) ->
      exists h, init csv_AB ["A"; "B"] = Ok h).
Proof. apply (init_fails_on_missing_file csv_AB ["A"; "B"] NoDup_AB). Defined.

(** *** Advancing *)

Lemma dict_keys_nil {V : Type} (d : gmap string V) :
  dict_keys d = [] <-> d = ∅.
Proof.
  unfold dict_keys. split.
  - intros H. apply map_to_list_empty_iff.
    destruct (map_to_list d); [reflexivity | discriminate].
  - intros ->. by rewrite map_to_list_empty.
Qed.

(** One symbol's turn in [update_bars]: with an empty [symbol_data] the
    generator stops at once and the flag is cleared; otherwise its first
    step raises, and not [StopIteration]. *)
Lemma update_bar_cases h s :
  (symbol_data h = ∅ /\
   update_bar h s
   = Ok (mkHandler (Data.symbol_list h) (symbol_data h) (latest_symbol_data h) false))
  \/ (symbol_data h <> ∅ /\ exists e, update_bar h s = Raise e).
Proof.
  unfold update_bar, _get_new_bar_next.
  destruct (dict_keys (symbol_data h)) as [| b keys] eqn:Ekeys.
  - left. split; [by apply dict_keys_nil | reflexivity].
  - right. split.
    + intros Hempty. apply dict_keys_nil in Hempty. congruence.
    + destruct b as [| c b]; eexists; reflexivity.
Qed.

Lemma update_bars_loop_effect syms : forall h h',
  update_bars_loop syms h = Ok h' ->
  Data.symbol_list h' = Data.symbol_list h
  /\ symbol_data h' = symbol_data h
  /\ latest_symbol_data h' = latest_symbol_data h
  /\ (syms = [] \/ symbol_data h = ∅)
  /\ continue_backtest h' = (if syms is [] then continue_backtest h else false).
Proof.
  induction syms as [| s syms IH]; intros h h' Hrun.
  - injection Hrun as <-. repeat split. by left.
  - simpl in Hrun.
    destruct (update_bar_cases h s) as [[Hempty Hs] | [_ [e Hs]]];
      rewrite Hs in Hrun; cbn [mbind result_bind] in Hrun; [| discriminate].
    destruct (IH _ _ Hrun) as (H1 & H2 & H3 & _ & H5). cbn in H1, H2, H3, H5.
    repeat split; try assumption; [by right |].
    rewrite H5. by destruct syms.
Qed.

(** X6: the code of [update_bars] never produces a bar.  A call that
    returns has left the bars produced and [symbol_data] as they were and
    put one Market event on the queue, and it returns only when the
    symbol list or [symbol_data] is empty: with an empty symbol list it
    changes nothing else, and with symbols but an empty [symbol_data] it
    clears the flag. *)
Theorem update_bars_never_produces_a_bar (h : HistoricCSVDataHandler) (events : queue) :
  (forall h' events',
     update_bars h events = Ok (h', events') ->
     latest_symbol_data h' = latest_symbol_data h
     /\ symbol_data h' = symbol_data h
     /\ events' = events ++ [Some MARKET]
     /\ (Data.symbol_list h = [] \/ symbol_data h = ∅))
  /\ (Data.symbol_list h = [] ->
      update_bars h events = Ok (h, events ++ [Some MARKET]))
  /\ (Data.symbol_list h <> [] -> symbol_data h = ∅ ->
      update_bars h events
      = Ok (mkHandler (Data.symbol_list h) (symbol_data h) (latest_symbol_data h) false,
            events ++ [Some MARKET])).
Proof.
  split; [| split].
  - intros h' events'. unfold update_bars.
    destruct (update_bars_loop (Data.symbol_list h) h) as [h1 |] eqn:E;
      cbn [mbind result_bind]; [| discriminate].
    intros [= <- <-].
    destruct (update_bars_loop_effect _ _ _ E) as (_ & H2 & H3 & H4 & _).
    done.
  - intros Hsyms. unfold update_bars. rewrite Hsyms. reflexivity.
  - intros Hsyms Hempty. unfold update_bars.
    assert (Hloop : forall syms h0,
              syms <> [] -> symbol_data h0 = ∅ ->
              update_bars_loop syms h0
              = Ok (mkHandler (Data.symbol_list h0) (symbol_data h0)
                      (latest_symbol_data h0) false)).
    { induction syms as [| s syms IH]; intros h0 Hne He; [done |].
      simpl. destruct (update_bar_cases h0 s) as [[_ Hs] | [Hn _]]; [| done].
      rewrite Hs. cbn [mbind result_bind].
      destruct syms as [| s' syms']; [reflexivity |].
      rewrite IH by done. reflexivity. }
    rewrite Hloop by done. reflexivity.
Qed.

Lemma update_bars_never_produces_a_bar_witness :
  update_bars (mkHandler [] ∅ ∅ true) []
  = Ok (mkHandler [] ∅ ∅ true, [] ++ [Some MARKET]).
Proof.
  apply (proj1 (proj2 (update_bars_never_produces_a_bar (mkHandler [] ∅ ∅ true) []))).
  reflexivity.
Defined.

(** X8: Whatever the count, the query returns a suffix of the bars produced
    for the symbol, in their order; with a count of zero or below the
    slice [bar_list[-N:]] is the list without its first [-N] bars, so a
    count of zero returns every bar. *)
Theorem get_latest_bars_is_suffix (h : HistoricCSVDataHandler) (symbol : string)
    (N : Z) (bar_list : list bar) :
  latest_symbol_data h !! symbol = Some bar_list ->
  (exists older latest,
     get_latest_bars h symbol N = Some latest /\ bar_list = older ++ latest)
  /\ (N <= 0 ->
      get_latest_bars h symbol N = Some (drop (Z.to_nat (- N)) bar_list)).
Proof.
  intros Hl. unfold get_latest_bars. rewrite Hl. split.
  - unfold slice_from. eexists (take _ bar_list), _.
    split; [reflexivity |]. symmetry. apply take_drop.
  - intros HN. f_equal. unfold slice_from.
    destruct (Z.ltb_spec (- N) 0); [lia |].
    destruct (Z.min_spec (- N) (Z.of_nat (length bar_list))) as [[Hlt ->] | [Hge ->]].
    + reflexivity.
    + rewrite Nat2Z.id. rewrite !drop_ge; [reflexivity | lia | lia].
Qed.

Lemma get_latest_bars_is_suffix_witness :
  (exists older latest,
     get_latest_bars FeedTerms.feed_A "A" (-1) = Some latest
     /\ [FeedTerms.bar_A 1 10; FeedTerms.bar_A 2 11] = older ++ latest)
  /\ (-1 <= 0 ->
      get_latest_bars FeedTerms.feed_A "A" (-1)
      = Some (drop (Z.to_nat (- -1)) [FeedTerms.bar_A 1 10; FeedTerms.bar_A 2 11])).
Proof.
  apply (get_latest_bars_is_suffix FeedTerms.feed_A "A" (-1)). reflexivity.
Defined.

End FeedExtra.


(** ** The ledger (portfolio.py) *)

Module LedgerExtra.
Import Event Data Portfolio.
Import LedgerTerms ExtraTerms.
Import LedgerFacts.

Lemma copy_positions_effect cur syms : forall dp dp',
  copy_positions cur syms dp = Ok dp' ->
  (forall s, s ∈ syms -> is_Some (cur !! s) /\ dp' !! s = cur !! s)
  /\ (forall k, k ∉ syms -> dp' !! k = dp !! k).
Proof.
  induction syms as [| s0 syms IH]; intros dp dp' Hrun.
  - injection Hrun as <-. split; [by intros s ?%elem_of_nil | done].
  - simpl in Hrun. unfold getitem in Hrun.
    destruct (cur !! s0) as [v |] eqn:Ev; [| discriminate].
    cbn [mbind result_bind] in Hrun.
    destruct (IH _ _ Hrun) as [Hin Hout]. split.
    + intros s Hs. destruct (decide (s ∈ syms)) as [Hs' | Hs']; [by apply Hin |].
      apply elem_of_cons in Hs as [-> | Hs]; [| done].
      rewrite (Hout s0 Hs'), lookup_insert_eq. by rewrite Ev.
    + intros k Hk. apply not_elem_of_cons in Hk as [Hne Hk].
      rewrite (Hout k Hk). by rewrite lookup_insert_ne.
Qed.

Lemma copy_positions_returns cur syms :
  (forall s, s ∈ syms -> is_Some (cur !! s)) ->
  forall dp, exists dp', copy_positions cur syms dp = Ok dp'.
Proof.
  induction syms as [| s syms IH]; intros Hall dp; simpl; [eauto |].
  destruct (Hall s) as [v Hv]; [left |].
  unfold getitem. rewrite Hv. cbn [mbind result_bind].
  apply IH. intros s' Hs'. apply Hall. by right.
Qed.

Lemma copy_positions_outcome cur syms : forall dp,
  (exists dp', copy_positions cur syms dp = Ok dp')
  \/ copy_positions cur syms dp = Raise KeyError.
Proof.
  induction syms as [| s syms IH]; intros dp; simpl; [eauto |].
  unfold getitem. destruct (cur !! s); cbn [mbind result_bind]; [apply IH | by right].
Qed.

Lemma positions_row_cases h p s0 syms :
  symbol_list p = s0 :: syms ->
  positions_row h p
  = match get_latest_bars h s0 1 with
    | None => Raise TypeError
    | Some [] => Raise IndexError
    | Some (b0 :: _) =>
        copy_positions (current_positions p) (symbol_list p)
          (<["datetime" := bar_datetime b0]> (zero_dict 0 (symbol_list p)))
    end.
Proof.
  intros Hsyms. unfold positions_row.
  assert (Hbars : latest_bars h (symbol_list p) !! s0
                  = Some (get_latest_bars h s0 1)).
  { apply latest_bars_lookup. rewrite Hsyms. left. }
  rewrite Hsyms at 1. cbn [first mbind result_bind].
  unfold getitem. rewrite Hbars. cbn [mbind result_bind].
  destruct (get_latest_bars h s0 1) as [[| b rest] |]; reflexivity.
Qed.

(** X10: how the time-index update ends.  It never returns.  It raises
    [IndexError] on an empty symbol list and when the feed has produced no
    bar for the first symbol, [TypeError] when the feed does not know the
    first symbol, [KeyError] when a symbol has no position, each time
    leaving the ledger as it was.  Otherwise it appends the row of
    positions, a copy of the current positions, and then raises
    [TypeError]: the positions series has one row more and the holdings
    series none. *)
Theorem update_timeindex_outcomes (h : HistoricCSVDataHandler) (p : NaivePortfolio) :
  (symbol_list p = [] -> update_timeindex h p = (Raise IndexError, p))
  /\ (forall s0 syms, symbol_list p = s0 :: syms ->
      (get_latest_bars h s0 1 = None ->
       update_timeindex h p = (Raise TypeError, p))
      /\ (get_latest_bars h s0 1 = Some [] ->
          update_timeindex h p = (Raise IndexError, p))
      /\ (forall b0 rest,
            get_latest_bars h s0 1 = Some (b0 :: rest) ->
            ((exists s, s ∈ symbol_list p /\ current_positions p !! s = None) ->
             update_timeindex h p = (Raise KeyError, p))
            /\ ((forall s, s ∈ symbol_list p -> is_Some (current_positions p !! s)) ->
                exists dp,
                  update_timeindex h p
                  = (Raise TypeError,
                     mkPortfolio (symbol_list p) (start_date p) (init_capital p)
                       (all_position p ++ [dp]) (current_positions p)
                       (all_holdings p) (current_holdings p))
                  /\ (forall s, s ∈ symbol_list p ->
                      dp !! s = current_positions p !! s)
                  /\ ("datetime" ∉ symbol_list p ->
                      dp !! "datetime" = Some (bar_datetime b0))))).
Proof.
  rewrite update_timeindex_outcome. split.
  - intros Hsyms. unfold positions_row. rewrite Hsyms. reflexivity.
  - intros s0 syms Hsyms.
    rewrite (positions_row_cases h p s0 syms Hsyms).
    split; [intros ->; reflexivity |].
    split; [intros ->; reflexivity |].
    intros b0 rest ->.
    set (dp0 := <["datetime" := bar_datetime b0]> (zero_dict 0 (symbol_list p))).
    split.
    + intros (s & Hs & Hnone).
      destruct (copy_positions_outcome (current_positions p) (symbol_list p) dp0)
        as [[dp Hdp] | ->]; [| reflexivity].
      destruct (proj1 (copy_positions_effect _ _ _ _ Hdp) s Hs) as [[v Hv] _].
      congruence.
    + intros Hall.
      destruct (copy_positions_returns _ _ Hall dp0) as [dp Hdp].
      rewrite Hdp. exists dp. split; [reflexivity |].
      destruct (copy_positions_effect _ _ _ _ Hdp) as [Hin Hout].
      split; [intros s Hs; apply (Hin s Hs) |].
      intros Hdt. rewrite (Hout _ Hdt). subst dp0. apply lookup_insert_eq.
Qed.

Lemma update_timeindex_outcomes_witness :
  exists dp,
    update_timeindex feed_X ledger0
    = (Raise TypeError,
       mkPortfolio (symbol_list ledger0) (start_date ledger0) (init_capital ledger0)
         (all_position ledger0 ++ [dp]) (current_positions ledger0)
         (all_holdings ledger0) (current_holdings ledger0))
    /\ (forall s, s ∈ symbol_list ledger0 -> dp !! s = current_positions ledger0 !! s)
    /\ ("datetime" ∉ symbol_list ledger0 -> dp !! "datetime" = Some (bar_datetime bar_X)).
Proof.
  apply (proj2 (proj2 (proj2
           (proj2 (update_timeindex_outcomes feed_X ledger0) "X" [] eq_refl))
           bar_X [] eq_refl)).
  intros s Hs. apply list_elem_of_singleton in Hs as ->. by eexists.
Defined.

End LedgerExtra.

(** ** The naive sizing policy (portfolio.py, event.py) *)

Module SizingExtra.
Import Event Data Portfolio.
Import SizingTerms ExtraTerms.
Import SizingFacts.

Lemma OrderEvent_init_negative symbol ty quantity direction :
  quantity < 0 ->
  OrderEvent_init symbol ty quantity direction = Raise AssertionError.
Proof.
  intros Hq. unfold OrderEvent_init, py_assert.
  destruct (String.eqb ty "MKT" || String.eqb ty "LMT"); [| reflexivity].
  cbn [mbind result_bind].
  destruct (Z.leb_spec 0 quantity); [lia | reflexivity].
Qed.

(** The policy when the signal carries a strength and its symbol is
    tracked, with the directions decided. *)
Lemma generate_naive_order_cases p signal s cur :
  strength signal = Some s ->
  current_positions p !! sig_symbol signal = Some cur ->
  generate_naive_order p signal =
  (let sym := sig_symbol signal in
   let dir := signal_type signal in
   o1 ← order_if (String.eqb dir "LONG" && (cur =? 0)) sym (Qfloor (100 * s)) "BUY" None;
   o2 ← order_if (String.eqb dir "SHORT" && (cur =? 0)) sym (Qfloor (100 * s)) "SELL" o1;
   o3 ← order_if (String.eqb dir "EXIT" && (0 <? cur)) sym (Z.abs cur) "SELL" o2;
   o4 ← order_if (String.eqb dir "EXIT" && (cur <? 0)) sym (Z.abs cur) "BUY" o3;
   Ok o4).
Proof.
  intros Hs Hcur. rewrite generate_naive_order_ifs. unfold getitem.
  rewrite Hs, Hcur. reflexivity.
Qed.

(** X18: When the policy raises.  A signal without a strength stops it with
    [AttributeError] and a signal on a symbol the ledger does not track
    with [KeyError], whatever the direction; a LONG or SHORT signal of
    negative strength on a flat position fails the quantity assertion of
    the order.  In each case [update_signal] raises the same error and
    nothing reaches the queue. *)
Theorem sizing_policy_errors (p : NaivePortfolio) (events : queue)
    (signal : SignalEvent) :
  (strength signal = None ->
   update_signal p events (SIGNAL signal) = Raise AttributeError)
  /\ (is_Some (strength signal) ->
      current_positions p !! sig_symbol signal = None ->
      update_signal p events (SIGNAL signal) = Raise KeyError)
  /\ (forall s,
        strength signal = Some s -> (s < 0)%Q ->
        current_positions p !! sig_symbol signal = Some 0 ->
        signal_type signal = "LONG" \/ signal_type signal = "SHORT" ->
        update_signal p events (SIGNAL signal) = Raise AssertionError).
Proof.
  unfold update_signal. split; [| split].
  - intros Hs. unfold generate_naive_order. rewrite Hs. reflexivity.
  - intros [s Hs] Hcur. unfold generate_naive_order, getitem.
    rewrite Hs, Hcur. reflexivity.
  - intros s Hs Hneg Hcur Hdir.
    rewrite (generate_naive_order_cases p signal s 0 Hs Hcur). cbv zeta.
    assert (Hq : Qfloor (100 * s) < 0).
    { assert (H100 : (100 * s < 0)%Q).
      { revert Hneg. unfold Qlt. simpl. lia. }
      pose proof (Qfloor_le (100 * s)) as Hfl.
      assert (Hlt : (inject_Z (Qfloor (100 * s)) < inject_Z 0)%Q)
        by (eapply Qle_lt_trans; eassumption).
      by rewrite <- Zlt_Qlt in Hlt. }
    destruct Hdir as [-> | ->]; unfold order_if;
      cbn -[Qfloor Qmult OrderEvent_init];
      rewrite OrderEvent_init_negative by exact Hq; reflexivity.
Qed.

Lemma sizing_policy_errors_witness :
  update_signal (ledger_X 0) [] (SIGNAL long_negative_X) = Raise AssertionError.
Proof.
  apply (proj2 (proj2 (sizing_policy_errors (ledger_X 0) [] long_negative_X))
           (-1)%Q);
    [reflexivity | reflexivity | reflexivity | left; reflexivity].
Defined.

(** *** When an order is emitted *)

Lemma OrderEvent_init_market symbol quantity direction :
  0 <= quantity -> direction = "BUY" \/ direction = "SELL" ->
  OrderEvent_init symbol "MKT" quantity direction = Ok bare_order.
Proof.
  intros Hq Hdir. unfold OrderEvent_init, py_assert.
  change (String.eqb "MKT" "MKT" || String.eqb "MKT" "LMT") with true.
  cbn [mbind result_bind].
  destruct (Z.leb_spec 0 quantity); [| lia]. cbn [mbind result_bind].
  destruct Hdir as [-> | ->]; reflexivity.
Qed.

Lemma update_signal_on_signal p events signal :
  update_signal p events (SIGNAL signal)
  = (order_event ← generate_naive_order p signal;
     Ok (put events (ORDER <$> order_event))).
Proof. reflexivity. Qed.

Lemma floor_of_nonnegative (s : Q) : (0 <= s)%Q -> 0 <= Qfloor (100 * s).
Proof.
  intros Hs. change 0 with (Qfloor 0). apply Qfloor_resp_le.
  revert Hs. unfold Qle. simpl. lia.
Qed.

(** X15: A LONG or SHORT signal to which a strength [s >= 0] has been
    attached, on a tracked symbol.  With no position in the symbol the
    policy returns the object the constructor of the order builds, which
    holds no attribute, and [update_signal] puts it on the queue; with any
    other position it returns [None], and [None] is what is put on the
    queue. *)
Theorem long_short_signal_sizing (p : NaivePortfolio) (events : queue)
    (signal : SignalEvent) (s : Q) (cur : Z) :
  strength signal = Some s -> (0 <= s)%Q ->
  signal_type signal = "LONG" \/ signal_type signal = "SHORT" ->
  current_positions p !! sig_symbol signal = Some cur ->
  (cur = 0 ->
   generate_naive_order p signal = Ok (Some bare_order)
   /\ update_signal p events (SIGNAL signal)
      = Ok (put events (Some (ORDER bare_order))))
  /\ (cur <> 0 ->
      generate_naive_order p signal = Ok None
      /\ update_signal p events (SIGNAL signal) = Ok (put events None)).
Proof.
  intros Hs Hpos Hdir Hcur.
  pose proof (floor_of_nonnegative s Hpos) as Hq.
  rewrite update_signal_on_signal.
  rewrite (generate_naive_order_cases p signal s cur Hs Hcur). cbv zeta.
  split.
  - intros ->.
    destruct Hdir as [-> | ->]; unfold order_if;
      cbn -[Qfloor Qmult OrderEvent_init];
      rewrite OrderEvent_init_market by (auto using Hq); split; reflexivity.
  - intros Hne. destruct (Z.eqb_spec cur 0) as [| _]; [done |].
    destruct Hdir as [-> | ->]; unfold order_if; split; reflexivity.
Qed.

Lemma long_short_signal_sizing_witness :
  generate_naive_order (ledger_X 0) long_X = Ok (Some bare_order)
  /\ update_signal (ledger_X 0) [] (SIGNAL long_X)
     = Ok (put [] (Some (ORDER bare_order))).
Proof.
  apply (proj1 (long_short_signal_sizing (ledger_X 0) [] long_X 1%Q 0
                  eq_refl ltac:(discriminate) (or_introl eq_refl) eq_refl)).
  reflexivity.
Defined.

(** X16: An EXIT signal to which a strength has been attached, on a tracked
    symbol: whatever the strength, the policy returns the object the
    constructor of the order builds when there is a position, long or
    short, and [None] when there is none; [update_signal] puts the one or
    the other on the queue. *)
Theorem exit_signal_sizing (p : NaivePortfolio) (events : queue)
    (signal : SignalEvent) (s : Q) (cur : Z) :
  strength signal = Some s ->
  signal_type signal = "EXIT" ->
  current_positions p !! sig_symbol signal = Some cur ->
  (cur <> 0 ->
   generate_naive_order p signal = Ok (Some bare_order)
   /\ update_signal p events (SIGNAL signal)
      = Ok (put events (Some (ORDER bare_order))))
  /\ (cur = 0 ->
      generate_naive_order p signal = Ok None
      /\ update_signal p events (SIGNAL signal) = Ok (put events None)).
Proof.
  intros Hs Hdir Hcur.
  rewrite update_signal_on_signal.
  rewrite (generate_naive_order_cases p signal s cur Hs Hcur). cbv zeta.
  rewrite Hdir. unfold order_if.
  change (String.eqb "EXIT" "LONG") with false.
  change (String.eqb "EXIT" "SHORT") with false.
  change (String.eqb "EXIT" "EXIT") with true.
  cbn [andb mbind result_bind].
  assert (Habs : 0 <= Z.abs cur) by lia.
  split.
  - intros Hne.
    destruct (Z.ltb_spec 0 cur), (Z.ltb_spec cur 0); try lia;
      cbn [mbind result_bind];
      rewrite OrderEvent_init_market by auto; split; reflexivity.
  - intros ->. split; reflexivity.
Qed.

Lemma exit_signal_sizing_witness :
  generate_naive_order (ledger_X 50) exit_X = Ok (Some bare_order)
  /\ update_signal (ledger_X 50) [] (SIGNAL exit_X)
     = Ok (put [] (Some (ORDER bare_order))).
Proof.
  apply (proj1 (exit_signal_sizing (ledger_X 50) [] exit_X 1%Q 50
                  eq_refl eq_refl eq_refl)).
  discriminate.
Defined.

(** X17: A signal with a strength attached whose type is none of LONG,
    SHORT and EXIT, on a tracked symbol, gets no order: the policy returns
    [None], which [update_signal] puts on the queue. *)
Theorem untyped_signal_gets_no_order (p : NaivePortfolio) (events : queue)
    (signal : SignalEvent) (s : Q) (cur : Z) :
  strength signal = Some s ->
  current_positions p !! sig_symbol signal = Some cur ->
  signal_type signal <> "LONG" -> signal_type signal <> "SHORT" ->
  signal_type signal <> "EXIT" ->
  generate_naive_order p signal = Ok None
  /\ update_signal p events (SIGNAL signal) = Ok (put events None).
Proof.
  intros Hs Hcur Hlong Hshort Hexit.
  rewrite update_signal_on_signal.
  rewrite (generate_naive_order_cases p signal s cur Hs Hcur). cbv zeta.
  apply String.eqb_neq in Hlong, Hshort, Hexit.
  rewrite Hlong, Hshort, Hexit. split; reflexivity.
Qed.

Lemma untyped_signal_gets_no_order_witness :
  generate_naive_order (ledger_X 0) hold_X = Ok None
  /\ update_signal (ledger_X 0) [] (SIGNAL hold_X) = Ok (put [] None).
Proof.
  apply (untyped_signal_gets_no_order (ledger_X 0) [] hold_X 1%Q 0);
    [reflexivity | reflexivity | discriminate | discriminate | discriminate].
Defined.

End SizingExtra.

(** ** Drawdowns and the Sharpe ratio (performance.py) *)

Module PerformanceExtra.
Import Performance.
Import ExtraTerms.

(** *** Subscripts *)

Lemma py_index_lookup {A : Type} (l : list A) (n : nat) (x : A) :
  l !! n = Some x -> py_index l (Z.of_nat n) = Ok x.
Proof.
  intros Hx. pose proof (lookup_lt_Some _ _ _ Hx) as Hlt.
  unfold py_index. destruct (Z.ltb_spec (Z.of_nat n) 0); [lia |].
  destruct (Z.ltb_spec (Z.of_nat n) 0); [lia |].
  destruct (Z.leb_spec (Z.of_nat (length l)) (Z.of_nat n)); [lia |].
  cbn [orb]. rewrite Nat2Z.id, Hx. reflexivity.
Qed.

Lemma py_index_last {A : Type} (l : list A) (x : A) :
  py_index (l ++ [x]) (-1) = Ok x.
Proof.
  unfold py_index. rewrite length_app. simpl.
  destruct (Z.ltb_spec (-1) 0); [| lia].
  destruct (Z.ltb_spec (-1 + Z.of_nat (length l + 1)) 0); [lia |].
  destruct (Z.leb_spec (Z.of_nat (length l + 1))
              (-1 + Z.of_nat (length l + 1))); [lia |].
  cbn [orb].
  replace (Z.to_nat (-1 + Z.of_nat (length l + 1))) with (length l) by lia.
  rewrite lookup_app_r by lia. rewrite Nat.sub_diag. reflexivity.
Qed.

Lemma lookup_snoc_length {A : Type} (l : list A) (x : A) (k : nat) :
  length l = k -> (l ++ [x]) !! k = Some x.
Proof.
  intros <-. rewrite lookup_app_r by lia. by rewrite Nat.sub_diag.
Qed.

(** *** The loop of [create_drawdowns] *)

Lemma dd_loop_lagged curve : forall rest done k a b prev st D U,
  curve = done ++ rest -> length done = k ->
  length (hwm st) = S k ->
  py_index (hwm st) (Z.of_nat k - 1) = Ok a ->
  hwm st !! k = Some b ->
  drawdown st = D ++ replicate (length rest) None -> length D = k ->
  duration st = U ++ replicate (length rest) None -> length U = k ->
  (rest <> [] -> py_index (duration st) (Z.of_nat k - 1) = Ok prev) ->
  exists st',
    dd_loop curve (map Z.of_nat (seq k (length rest))) st = Ok st'
    /\ drawdown st' = D ++ map Some (lagged_drawdowns a b rest)
    /\ duration st' = U ++ durations prev (lagged_drawdowns a b rest).
Proof.
  induction rest as [| e rest IH];
    intros done k a b prev st D U Hc Hdone Hlen Ha Hb Hdd HD Hdu HU Hprev.
  - exists st. simpl in *. rewrite !app_nil_r in *. done.
  - cbn [length seq map dd_loop].
    assert (He : py_index curve (Z.of_nat k) = Ok e).
    { apply py_index_lookup. rewrite Hc, lookup_app_r by lia.
      replace (k - length done)%nat with 0%nat by lia. reflexivity. }
    assert (Hb' : py_index (hwm st ++ [py_max a e]) (Z.of_nat k) = Ok b).
    { apply py_index_lookup. rewrite lookup_app_l by lia. exact Hb. }
    set (dd := (b - e)%Q).
    set (dur := if Qeq_bool dd 0 then Some 0%Q else succ_cell prev).
    set (st1 := mkDD (hwm st ++ [py_max a e])
                     (<[k := Some dd]> (drawdown st))
                     (<[k := dur]> (duration st))).
    assert (Hstep : dd_step curve st (Z.of_nat k) = Ok st1).
    { unfold dd_step. rewrite Ha. cbn [mbind result_bind].
      rewrite He. cbn [mbind result_bind].
      rewrite Hb'. cbn [mbind result_bind]. fold dd.
      rewrite Nat2Z.id. subst st1 dur.
      destruct (Qeq_bool dd 0); cbn [mbind result_bind]; [reflexivity |].
      rewrite Hprev by discriminate. reflexivity. }
    rewrite Hstep. cbn [mbind result_bind].
    assert (Hdd1 : drawdown st1 = (D ++ [Some dd]) ++ replicate (length rest) None).
    { subst st1. cbn [drawdown]. rewrite Hdd. cbn [length replicate].
      rewrite insert_app_r_alt by lia.
      replace (k - length D)%nat with 0%nat by lia.
      rewrite <- app_assoc. reflexivity. }
    assert (Hdu1 : duration st1 = (U ++ [dur]) ++ replicate (length rest) None).
    { subst st1. cbn [duration]. rewrite Hdu. cbn [length replicate].
      rewrite insert_app_r_alt by lia.
      replace (k - length U)%nat with 0%nat by lia.
      rewrite <- app_assoc. reflexivity. }
    destruct (IH (done ++ [e]) (S k) b (py_max a e) dur st1
                (D ++ [Some dd]) (U ++ [dur])) as (st' & Hrun & H1 & H2).
    + rewrite <- app_assoc. exact Hc.
    + rewrite length_app. simpl. lia.
    + subst st1. cbn [hwm]. rewrite length_app. simpl. lia.
    + replace (Z.of_nat (S k) - 1) with (Z.of_nat k) by lia. exact Hb'.
    + subst st1. cbn [hwm]. rewrite lookup_app_r by lia.
      replace (S k - length (hwm st))%nat with 0%nat by lia. reflexivity.
    + exact Hdd1.
    + rewrite length_app. simpl. lia.
    + exact Hdu1.
    + rewrite length_app. simpl. lia.
    + intros _. replace (Z.of_nat (S k) - 1) with (Z.of_nat k) by lia.
      apply py_index_lookup. rewrite Hdu1.
      rewrite lookup_app_l by (rewrite length_app; simpl; lia).
      apply lookup_snoc_length. exact HU.
    + exists st'. split; [exact Hrun |].
      rewrite H1, H2, <- !app_assoc. cbn [lagged_drawdowns durations map].
      fold dd. fold dur. done.
Qed.

Lemma create_drawdowns_lagged (curve : list Q) :
  let dds := lagged_drawdowns 0 0 curve in
  create_drawdowns curve
  = Ok (sorted_reverse (zip (map Some dds) (durations None dds))).
Proof.
  intros dds. unfold create_drawdowns.
  destruct (dd_loop_lagged curve curve [] 0%nat 0%Q 0%Q None
              (mkDD [0%Q] (replicate (length curve) None)
                    (replicate (length curve) None)) [] [])
    as (st' & Hrun & H1 & H2); try reflexivity.
  - intros Hne. cbn [duration].
    destruct curve as [| e rest]; [done |]. cbn [length].
    replace (S (length rest)) with (length rest + 1)%nat by lia.
    rewrite replicate_add. apply py_index_last.
  - rewrite Hrun. cbn [mbind result_bind]. rewrite H1, H2. reflexivity.
Qed.

Lemma create_drawdowns_lagged_lengths (curve : list Q) :
  let dds := lagged_drawdowns 0 0 curve in
  create_drawdowns curve
  = Ok (sorted_reverse (zip (map Some dds) (durations None dds)))
  /\ length dds = length curve
  /\ length (durations None dds) = length curve.
Proof.
  intros dds. split; [apply create_drawdowns_lagged |].
  assert (Hlen : forall a b l, length (lagged_drawdowns a b l) = length l).
  { intros a b l. revert a b. induction l as [| e l IH]; intros a b; simpl;
      [reflexivity | by rewrite IH]. }
  assert (Hlen' : forall prev l, length (durations prev l) = length l).
  { intros prev l. revert prev. induction l as [| e l IH]; intros prev; simpl;
      [reflexivity | by rewrite IH]. }
  split; [apply Hlen |]. subst dds. rewrite Hlen'. apply Hlen.
Qed.

(** X19: [create_drawdowns] returns for every curve, one pair per point,
    sorted by drawdown from the largest down.  The drawdown of point [t]
    is [hwm[t] - e_t], the mark being the one appended a step earlier:
    [hwm[0] = 0], and the mark appended at step [t] is
    [max(hwm[t-1], e_t)], with [hwm[-1]], the last mark, at [t = 0]; so
    the first drawdown is minus the first equity.  The duration of a
    point is 0 where its drawdown is exactly zero and the duration before
    it plus one elsewhere, NaN as long as no drawdown has been zero. *)
Theorem create_drawdowns_measures_against_lagged_mark (curve : list Q) :
  let dds := lagged_drawdowns 0 0 curve in
  create_drawdowns curve
  = Ok (sorted_reverse (zip (map Some dds) (durations None dds)))
  /\ length dds = length curve
  /\ length (durations None dds) = length curve
  /\ (forall e rest, curve = e :: rest ->
      exists more,
        dds = (0 - e)%Q :: more
        /\ durations None dds
           = (if Qeq_bool (0 - e) 0 then Some 0%Q else None)
             :: durations (if Qeq_bool (0 - e) 0 then Some 0%Q else None) more).
Proof.
  intros dds. split; [apply create_drawdowns_lagged |].
  assert (Hlen : forall a b l, length (lagged_drawdowns a b l) = length l).
  { intros a b l. revert a b. induction l as [| e l IH]; intros a b; simpl;
      [reflexivity | by rewrite IH]. }
  assert (Hlen' : forall prev l, length (durations prev l) = length l).
  { intros prev l. revert prev. induction l as [| e l IH]; intros prev; simpl;
      [reflexivity | by rewrite IH]. }
  split; [apply Hlen |]. split; [subst dds; rewrite Hlen'; apply Hlen |].
  intros e rest ->. subst dds. cbn [lagged_drawdowns durations].
  eexists. split; [reflexivity |].
  destruct (Qeq_bool (0 - e) 0); reflexivity.
Qed.

Lemma create_drawdowns_measures_against_lagged_mark_witness :
  exists more,
    lagged_drawdowns 0 0 PerformanceTerms.curve = (0 - 1)%Q :: more
    /\ durations None (lagged_drawdowns 0 0 PerformanceTerms.curve)
       = (if Qeq_bool (0 - 1) 0 then Some 0%Q else None)
         :: durations (if Qeq_bool (0 - 1) 0 then Some 0%Q else None) more.
Proof.
  apply (proj2 (proj2 (proj2
           (create_drawdowns_measures_against_lagged_mark PerformanceTerms.curve)))
           1%Q [12 # 10; 9 # 10; 11 # 10]%Q).
  reflexivity.
Defined.

(** *** The sort and the maximum *)

Lemma insert_asc_perm x l : Permutation (insert_asc x l) (x :: l).
Proof.
  induction l as [| y l IH]; simpl; [reflexivity |].
  destruct (cell_ltb (fst x) (fst y)); [reflexivity |].
  rewrite IH. apply perm_swap.
Qed.

Lemma sort_asc_fold_perm l : forall acc,
  Permutation (foldl (fun a x => insert_asc x a) acc l) (acc ++ l).
Proof.
  induction l as [| x l IH]; intros acc; simpl.
  - by rewrite app_nil_r.
  - rewrite IH, insert_asc_perm. simpl. apply Permutation_middle.
Qed.

Lemma key_le_trans x y z : key_le x y -> key_le y z -> key_le x z.
Proof.
  unfold key_le. destruct (fst x), (fst y), (fst z); try done.
  apply Qle_trans.
Qed.

Lemma cell_ltb_false x y :
  keyed x -> keyed y -> cell_ltb (fst x) (fst y) = false -> key_le y x.
Proof.
  unfold keyed, key_le, cell_ltb. intros [a ->] [b ->].
  destruct (Qlt_le_dec a b); [discriminate | done].
Qed.

Lemma cell_ltb_true x y :
  cell_ltb (fst x) (fst y) = true -> key_le x y.
Proof.
  unfold key_le, cell_ltb. destruct (fst x), (fst y); try discriminate.
  destruct (Qlt_le_dec q q0); [intros _; by apply Qlt_le_weak | discriminate].
Qed.

Lemma insert_asc_sorted x l :
  keyed x -> Forall keyed l ->
  StronglySorted key_le l -> StronglySorted key_le (insert_asc x l).
Proof.
  intros Hx Hl Hs. induction Hs as [| y l Hs IH Hy]; simpl.
  - repeat constructor.
  - apply Forall_cons in Hl as [Hky Hl].
    destruct (cell_ltb (fst x) (fst y)) eqn:E.
    + apply cell_ltb_true in E. constructor; [by constructor |].
      constructor; [exact E |].
      eapply Forall_impl; [exact Hy |]. intros z Hz. by eapply key_le_trans.
    + apply cell_ltb_false in E; [| done | done].
      constructor; [by apply IH |].
      rewrite insert_asc_perm. by constructor.
Qed.

Lemma sort_asc_fold_sorted l : forall acc,
  Forall keyed acc -> Forall keyed l -> StronglySorted key_le acc ->
  StronglySorted key_le (foldl (fun a x => insert_asc x a) acc l).
Proof.
  induction l as [| x l IH]; intros acc Hacc Hl Hs; simpl; [exact Hs |].
  apply Forall_cons in Hl as [Hx Hl]. apply IH.
  - rewrite insert_asc_perm. by constructor.
  - exact Hl.
  - by apply insert_asc_sorted.
Qed.

Lemma sorted_last_is_greatest l m :
  StronglySorted key_le (l ++ [m]) -> Forall (fun z => key_le z m) l.
Proof.
  induction l as [| y l IH]; intros Hs; [constructor |].
  simpl in Hs. apply StronglySorted_inv in Hs as [Hs Hy].
  constructor; [| by apply IH].
  apply Forall_app in Hy as [_ Hm]. inversion Hm; assumption.
Qed.

(** The head of the sorted list is an entry of the list whose key is at
    least every key. *)
Lemma sorted_reverse_head (l : list (cell * cell)) :
  l <> [] -> Forall keyed l ->
  exists m rest,
    sorted_reverse l = m :: rest
    /\ m ∈ l
    /\ Forall (fun z => key_le z m) l.
Proof.
  intros Hne Hk. unfold sorted_reverse, sort_asc.
  set (srt := foldl (fun a x => insert_asc x a) [] (rev l)).
  assert (Hperm : Permutation srt l).
  { subst srt. rewrite sort_asc_fold_perm. simpl.
    symmetry. apply Permutation_rev. }
  assert (Hs : StronglySorted key_le srt).
  { subst srt. apply sort_asc_fold_sorted; [constructor | | constructor].
    rewrite <- Permutation_rev. exact Hk. }
  destruct (rev srt) as [| m rest] eqn:Er.
  { exfalso. apply Hne. apply Permutation_nil.
    rewrite <- Hperm. apply (f_equal (@rev _)) in Er.
    rewrite rev_involutive in Er. by rewrite Er. }
  assert (Hsrt : srt = rev rest ++ [m]).
  { apply (f_equal (@rev _)) in Er. rewrite rev_involutive in Er. exact Er. }
  exists m, rest. split; [reflexivity |].
  rewrite Hsrt in Hs, Hperm.
  assert (Hm : m ∈ l).
  { rewrite <- Hperm. apply elem_of_app. right. by apply list_elem_of_singleton. }
  split; [exact Hm |].
  rewrite <- Hperm. apply Forall_app. split.
  - by apply sorted_last_is_greatest.
  - apply Forall_singleton.
    rewrite Forall_forall in Hk. destruct (Hk m Hm) as [a Ha].
    unfold key_le. rewrite Ha. apply Qle_refl.
Qed.

Lemma zip_keyed (dds : list Q) (durs : list cell) :
  Forall keyed (zip (map Some dds) durs).
Proof.
  revert durs. induction dds as [| d dds IH]; intros durs; simpl;
    [constructor |].
  destruct durs as [| u durs]; [constructor |].
  constructor; [by eexists | apply IH].
Qed.

Lemma elem_of_zip_fst (dds : list Q) (durs : list cell) d :
  length durs = length dds -> d ∈ dds ->
  exists u, (Some d, u) ∈ zip (map Some dds) durs.
Proof.
  revert durs. induction dds as [| d0 dds IH]; intros durs Hlen Hd.
  - by apply elem_of_nil in Hd.
  - destruct durs as [| u durs]; [discriminate |]. simpl.
    apply elem_of_cons in Hd as [-> | Hd].
    + exists u. left.
    + destruct (IH durs) as [u' Hu']; [by injection Hlen | done |].
      exists u'. by right.
Qed.

Lemma elem_of_zip_keys (dds : list Q) (durs : list cell) m :
  m ∈ zip (map Some dds) durs -> exists d, fst m = Some d /\ d ∈ dds.
Proof.
  revert durs. induction dds as [| d0 dds IH]; intros durs Hm; simpl in Hm.
  - by apply elem_of_nil in Hm.
  - destruct durs as [| u durs]; [by apply elem_of_nil in Hm |].
    apply elem_of_cons in Hm as [-> | Hm].
    + exists d0. split; [reflexivity | left].
    + destruct (IH durs Hm) as (d & Hd & Hin). exists d. split; [done | by right].
Qed.

(** X20: the list [create_drawdowns] returns for a curve with at least one
    point begins with the largest drawdown: its first entry carries one of
    the per-point drawdowns of the loop, and none of them is larger.  For
    the empty curve the list is empty. *)
Theorem create_drawdowns_puts_the_largest_first (curve : list Q) :
  create_drawdowns [] = Ok []
  /\ (curve <> [] ->
      exists d dur rest,
        create_drawdowns curve = Ok ((Some d, dur) :: rest)
        /\ d ∈ lagged_drawdowns 0 0 curve
        /\ (forall d', d' ∈ lagged_drawdowns 0 0 curve -> (d' <= d)%Q)).
Proof.
  split; [reflexivity |]. intros Hne.
  destruct (create_drawdowns_lagged_lengths curve)
    as (Hrun & Hl1 & Hl2).
  set (dds := lagged_drawdowns 0 0 curve) in *.
  set (pairs := zip (map Some dds) (durations None dds)) in *.
  destruct (sorted_reverse_head pairs) as (m & rest & Hsort & Hm & Hmax).
  - subst pairs. destruct curve as [| e c]; [done |].
    subst dds. cbn. discriminate.
  - apply zip_keyed.
  - destruct (elem_of_zip_keys _ _ _ Hm) as (d & Hd & Hin).
    destruct m as [k dur]. simpl in Hd. subst k.
    exists d, dur, rest. split; [| split; [exact Hin |]].
    + rewrite Hrun, Hsort. reflexivity.
    + intros d' Hd'.
      destruct (elem_of_zip_fst dds (durations None dds) d') as [u Hu];
        [congruence | done |].
      rewrite Forall_forall in Hmax. apply (Hmax _ Hu).
Qed.

Lemma create_drawdowns_puts_the_largest_first_witness :
  exists d dur rest,
    create_drawdowns PerformanceTerms.curve = Ok ((Some d, dur) :: rest)
    /\ d ∈ lagged_drawdowns 0 0 PerformanceTerms.curve
    /\ (forall d', d' ∈ lagged_drawdowns 0 0 PerformanceTerms.curve -> (d' <= d)%Q).
Proof.
  apply (proj2 (create_drawdowns_puts_the_largest_first PerformanceTerms.curve)).
  discriminate.
Defined.

(** *** The Sharpe ratio *)

(** X21: The risk-free rate is checked and then left out of the ratio: two
    rates that pass the check give the same outcome on every series and
    period label. *)
Theorem risk_free_rate_is_ignored (returns : list R) (rf1 rf2 : R) (periods : string) :
  (0 <= rf1 <= 1)%R -> (0 <= rf2 <= 1)%R ->
  get_sharpe_ratio returns rf1 periods = get_sharpe_ratio returns rf2 periods.
Proof.
  intros H1 H2. unfold get_sharpe_ratio.
  rewrite (proj2 (PerformanceFacts.in_unit_interval_spec rf1) H1).
  rewrite (proj2 (PerformanceFacts.in_unit_interval_spec rf2) H2).
  reflexivity.
Qed.

Lemma risk_free_rate_is_ignored_witness :
  get_sharpe_ratio [1%R; 2%R] 0 "Daily" = get_sharpe_ratio [1%R; 2%R] 1 "Daily".
Proof. apply (risk_free_rate_is_ignored [1%R; 2%R] 0 1 "Daily"); lra. Defined.

Lemma period_positive periods p : period !! periods = Some p -> (0 < p)%R.
Proof.
  rewrite PerformanceFacts.period_lookup.
  destruct (String.eqb periods "Daily"); [intros [= <-]; lra |].
  destruct (String.eqb periods "Hour"); [intros [= <-]; lra |].
  destruct (String.eqb periods "Minute"); [intros [= <-]; lra | discriminate].
Qed.

Lemma np_std_nonneg (l : list R) : (0 <= np_std l)%R.
Proof. unfold np_std. apply sqrt_pos. Qed.

(** X22: A finite Sharpe ratio has the sign of the mean return: it is the mean
    times a positive factor, so it is positive, negative or zero exactly
    when the mean is. *)
Theorem sharpe_sign_follows_mean (returns : list R) (risk_free : R)
    (periods : string) (r : R) :
  get_sharpe_ratio returns risk_free periods = Ok (Finite r) ->
  ((0 < r)%R <-> (0 < np_mean returns)%R)
  /\ ((r < 0)%R <-> (np_mean returns < 0)%R)
  /\ (r = 0%R <-> np_mean returns = 0%R).
Proof.
  unfold get_sharpe_ratio. destruct returns as [| x returns]; [discriminate |].
  set (l := x :: returns).
  destruct (valid_periods periods); cbn [py_assert mbind result_bind];
    [| discriminate].
  destruct (in_unit_interval risk_free); cbn [py_assert mbind result_bind];
    [| discriminate].
  unfold getitem. destruct (period !! periods) as [p |] eqn:Ep;
    cbn [mbind result_bind]; [| discriminate].
  unfold np_divide. destruct (Req_dec_T (np_std l) 0) as [| Hstd]; [discriminate |].
  intros [= <-].
  pose proof (period_positive _ _ Ep) as Hp.
  pose proof (sqrt_lt_R0 p Hp) as Hsp.
  pose proof (np_std_nonneg l) as Hs.
  assert (Hs' : (0 < np_std l)%R) by lra.
  assert (Hc : (0 < sqrt p / np_std l)%R) by (by apply Rdiv_lt_0_compat).
  replace (sqrt p * np_mean l / np_std l)%R
    with ((sqrt p / np_std l) * np_mean l)%R by (field; lra).
  set (c := (sqrt p / np_std l)%R) in *. set (m := np_mean l).
  repeat split; intros H; nra.
Qed.

Lemma np_std_pair_12 : np_std [1%R; 2%R] <> 0%R.
Proof.
  unfold np_std, np_mean. simpl. intros H.
  apply sqrt_eq_0 in H; lra.
Qed.

Lemma sharpe_sign_follows_mean_witness :
  ((0 < sqrt 252 * np_mean [1%R; 2%R] / np_std [1%R; 2%R])%R
   <-> (0 < np_mean [1%R; 2%R])%R)
  /\ ((sqrt 252 * np_mean [1%R; 2%R] / np_std [1%R; 2%R] < 0)%R
      <-> (np_mean [1%R; 2%R] < 0)%R)
  /\ ((sqrt 252 * np_mean [1%R; 2%R] / np_std [1%R; 2%R])%R = 0%R
      <-> np_mean [1%R; 2%R] = 0%R).
Proof.
  apply (sharpe_sign_follows_mean [1%R; 2%R] 0 "Daily").
  unfold get_sharpe_ratio.
  rewrite (proj2 (PerformanceFacts.in_unit_interval_spec 0)) by lra.
  cbn -[period np_std np_mean sqrt].
  unfold getitem. rewrite PerformanceFacts.period_lookup.
  cbn -[np_std np_mean sqrt].
  unfold np_divide.
  destruct (Req_dec_T (np_std [1%R; 2%R]) 0) as [H | _];
    [destruct (np_std_pair_12 H) | reflexivity].
Defined.

End PerformanceExtra.

(** ** The dispatch loop (main.py) *)

Module LoopExtra.
Import Event Data Portfolio Main.
Import FeedTerms LoopTerms ExtraTerms.

Section Loops.

Variable caculate_signal : HistoricCSVDataHandler -> list SignalEvent.
Variable execute_order : HistoricCSVDataHandler -> event -> option FillEvent.

Abbreviation outer_loop := (outer_loop caculate_signal execute_order).
Abbreviation inner_loop := (inner_loop caculate_signal execute_order).
Abbreviation dispatch := (dispatch caculate_signal execute_order).

(** X23: no backtest completes.  Started on a loaded feed with the ledger
    built over it and an empty queue, the loop is ended by an exception,
    whatever the files, the strategy and the broker are: by the
    [ValueError] of the first [update_bars] when there is a symbol, and
    with no symbol by the [IndexError] of the time-index update at the
    first Market event. *)
Theorem backtest_never_completes (csv : gmap string DataFrame) (syms : list string)
    (h : HistoricCSVDataHandler) (start : Z) (capital : Q) :
  init csv syms = Ok h -> "" ∉ syms ->
  let w := mkWorld h (NaivePortfolio_init h start capital) [] in
  let e := if syms is [] then IndexError else ValueError in
  outer_loop 2 w = Some (Raise e)
  /\ (forall fuel r, outer_loop fuel w = Some r -> r = Raise e).
Proof.
  intros Hinit Hempty w e.
  destruct syms as [| s0 syms].
  - injection Hinit as <-. subst w e.
    split; [reflexivity |].
    intros fuel r Hrun. destruct fuel as [| [| fuel]]; try discriminate.
    injection Hrun as <-. reflexivity.
  - destruct (LoopFacts.init_keys _ _ _ Hinit) as (Hsyms & Hflag & Hkeys).
    assert (Hub : forall q, update_bars h q = Raise ValueError).
    { intros q. apply (LoopFacts.update_bars_raises h q s0 syms s0 Hsyms).
      - apply Hkeys. left.
      - intros k' Hk' ->. apply Hempty. by apply Hkeys. }
    assert (Hstep : forall fuel, outer_loop (S fuel) w = Some (Raise ValueError)).
    { intros fuel. subst w. simpl. rewrite Hflag, Hub. reflexivity. }
    split; [apply Hstep |].
    intros fuel r Hrun. destruct fuel as [| fuel]; [discriminate |].
    rewrite Hstep in Hrun. by injection Hrun as <-.
Qed.

(** X24: an order the policy emits ends the loop.  An order built by the
    constructor has no [type], and the inner loop raises [AttributeError]
    when it reads it, before the broker is called; so a LONG or SHORT
    signal of strength [s >= 0] on a symbol without position, alone on
    the queue, is answered with an order at whose dispatch the loop
    raises. *)
Theorem emitted_order_ends_the_loop (h : HistoricCSVDataHandler)
    (p : NaivePortfolio) (signal : SignalEvent) (s : Q) (fuel : nat) :
  strength signal = Some s -> (0 <= s)%Q ->
  signal_type signal = "LONG" \/ signal_type signal = "SHORT" ->
  current_positions p !! sig_symbol signal = Some 0 ->
  (forall symbol ty quantity direction o q,
     OrderEvent_init symbol ty quantity direction = Ok o ->
     inner_loop (S fuel) (mkWorld h p (Some (ORDER o) :: q))
     = Some (Raise AttributeError))
  /\ inner_loop (S (S fuel)) (mkWorld h p [Some (SIGNAL signal)])
     = Some (Raise AttributeError).
Proof.
  intros Hs Hpos Hdir Hcur. split.
  - intros symbol ty quantity direction o q Ho.
    apply SizingFacts.OrderEvent_init_bare in Ho as ->. reflexivity.
  - assert (Hput : update_signal p [] (SIGNAL signal)
                   = Ok [Some (ORDER SizingTerms.bare_order)]).
    { rewrite SizingExtra.update_signal_on_signal.
      rewrite (SizingExtra.generate_naive_order_cases p signal s 0 Hs Hcur).
      cbv zeta. pose proof (SizingExtra.floor_of_nonnegative s Hpos) as Hq.
      destruct Hdir as [-> | ->]; unfold SizingTerms.order_if;
        cbn -[Qfloor Qmult OrderEvent_init];
        rewrite SizingExtra.OrderEvent_init_market by (auto using Hq);
        reflexivity. }
    cbn [inner_loop Main.inner_loop events].
    unfold dispatch at 1. cbn [event_type mbind result_bind attr_is].
    change (String.eqb "SIGNAL" "MARKET") with false.
    change (String.eqb "SIGNAL" "SIGNAL") with true.
    cbv iota. cbn [port events bars]. rewrite Hput. reflexivity.
Qed.

End Loops.

Lemma emitted_order_ends_the_loop_witness :
  Main.inner_loop silent no_fill 2
    (mkWorld LedgerTerms.feed_X (SizingTerms.ledger_X 0)
       [Some (SIGNAL SizingTerms.long_X)])
  = Some (Raise AttributeError).
Proof.
  apply (proj2 (emitted_order_ends_the_loop silent no_fill LedgerTerms.feed_X
                  (SizingTerms.ledger_X 0) SizingTerms.long_X 1%Q 0
                  eq_refl ltac:(discriminate) (or_introl eq_refl) eq_refl)).
Defined.

Lemma backtest_never_completes_witness :
  Main.outer_loop silent no_fill 2 (start_world csv_AB ["A"; "B"])
  = Some (Raise ValueError)
  /\ (forall fuel r,
        Main.outer_loop silent no_fill fuel (start_world csv_AB ["A"; "B"]) = Some r ->
        r = Raise ValueError).
Proof.
  apply (backtest_never_completes silent no_fill csv_AB ["A"; "B"]
           (loaded csv_AB ["A"; "B"]) 0 1000).
  - exact LoopFacts.init_AB.
  - intros H. apply elem_of_cons in H as [H | H]; [discriminate |].
    apply list_elem_of_singleton in H. discriminate.
Defined.

End LoopExtra.
